(** * Flood inundation mapping for the Mahanadi basin

    A shallow embedding of [Mahanadi_Flood_Inundation.js].  The script is a
    straight-line sequence of calls into the Earth Engine client: every
    binding of the script ([aoi], [dem], [rain], [s1], [heavyRain],
    [floodRisk], [pixelAreaKm2], [floodArea], [floodArea_km2],
    [floodVectors]) is a definition of the same name below, and the calls
    with an effect ([Map.addLayer], [print], [Export.*.toDrive], [Map.add])
    are state transformers on a [Session].

    The Earth Engine operations themselves are modelled by what the API
    reference says about them, on rasters sampled on the 30 m analysis grid:
    - a pixel of an image is either masked or carries a number;
    - numbers are rationals (every finite integer or floating-point sample
      is one, and the comparisons of the script are exact on them);
    - a geometry is the list of grid cells it covers, each counted whole;
    - a server-side value that cannot be computed is an [Err]. *)

From Stdlib Require Import ZArith QArith Qround List String Bool Lia.
From Stdlib Require Import Permutation Relations.
Import ListNotations.

Local Open Scope string_scope.
Local Open Scope list_scope.
Local Open Scope Z_scope.

(** ** Server-side results *)

Inductive EEError : Type :=
| TooManyPixels
| NoBands
| BandNotFound (pattern : string)
| MissingKey (key : string)
| NullArgument (algorithm parameter : string).

Inductive result (A : Type) : Type :=
| Ok (a : A)
| Err (e : EEError).

Arguments Ok {A} a.
Arguments Err {A} e.

Definition bind {A B : Type} (r : result A) (k : A -> result B) : result B :=
  match r with
  | Ok a => k a
  | Err e => Err e
  end.

Definition fmap {A B : Type} (f : A -> B) (r : result A) : result B :=
  bind r (fun a => Ok (f a)).

Notation "x <- r ;; k" := (bind r (fun x => k))
  (at level 61, r at next level, right associativity).

(** ** The analysis grid *)

(** A cell of the 30 m grid on which the script samples every raster
    ([scale: 30]). *)
Definition pixel : Type := (Z * Z)%type.

Definition pixel_eqb (p q : pixel) : bool :=
  (fst p =? fst q) && (snd p =? snd q).

(** A geometry, seen through the cells it contains. *)
Definition Region : Type := list pixel.

Definition contains (g : Region) (p : pixel) : bool :=
  existsb (pixel_eqb p) g.

(** Numbers as tests: a number is true when it is not zero. *)
Definition nonzero (v : Q) : bool := negb (Qeq_bool v 0).

Definition Qlt_bool (x y : Q) : bool := negb (Qle_bool y x).

Definition of_bool (b : bool) : Q := if b then 1%Q else 0%Q.

(** ** ee.Reducer and ee.Dictionary *)

Module Reducer.

(** A reducer maps its inputs to a number, or to null when it has nothing
    to say about them. *)
Definition t : Type := list Q -> option Q.

(** [ee.Reducer.sum()]: the sum of the inputs, 0 when there is none. *)
Definition sum : t := fun inputs => Some (fold_right Qplus 0%Q inputs).

End Reducer.

Module Dictionary.

Definition t : Type := list (string * option Q).

(** [dict.get(key)]: the value stored under [key], which may be null. *)
Fixpoint get (d : t) (key : string) : result (option Q) :=
  match d with
  | [] => Err (MissingKey key)
  | (k, v) :: rest => if String.eqb k key then Ok v else get rest key
  end.

End Dictionary.

(** ** ee.Image *)

Module Image.

(** A single-band image: the band's name and, for each cell, the sample
    there, [None] where the pixel is masked. *)
Record t : Type := make { band : string; sample : pixel -> option Q }.

(** Pointwise operations keep the band name of the image they are called on;
    the result is masked wherever an operand is. *)
Definition map1 (f : Q -> Q) (img : t) : t :=
  {| band := band img;
     sample := fun p => option_map f (sample img p) |}.

Definition map2 (f : Q -> Q -> Q) (a b : t) : t :=
  {| band := band a;
     sample := fun p =>
       match sample a p, sample b p with
       | Some x, Some y => Some (f x y)
       | _, _ => None
       end |}.

(** [image.gt(c)]: 1 where the sample is greater than [c], 0 elsewhere. *)
Definition gt (img : t) (c : Q) : t :=
  map1 (fun v => of_bool (Qlt_bool c v)) img.

(** [image.lt(c)]: 1 where the sample is less than [c], 0 elsewhere. *)
Definition lt (img : t) (c : Q) : t :=
  map1 (fun v => of_bool (Qlt_bool v c)) img.

(** [a.and(b)]: 1 where both samples are non-zero, 0 elsewhere. *)
Definition and (a b : t) : t :=
  map2 (fun x y => of_bool (nonzero x && nonzero y)) a b.

Definition divide (img : t) (c : Q) : t :=
  map1 (fun v => (v / c)%Q) img.

Definition rename (img : t) (name : string) : t :=
  {| band := name; sample := sample img |}.

(** [image.clip(g)]: data not covered by the geometry is masked. *)
Definition clip (img : t) (g : Region) : t :=
  {| band := band img;
     sample := fun p => if contains g p then sample img p else None |}.

(** [image.updateMask(mask)]: a pixel stays valid where it was valid and the
    mask is valid and non-zero. *)
Definition updateMask (img mask : t) : t :=
  {| band := band img;
     sample := fun p =>
       match sample mask p with
       | Some m => if nonzero m then sample img p else None
       | None => None
       end |}.

Definition selfMask (img : t) : t := updateMask img img.

(** [image.toByte()]: the sample as an unsigned 8-bit integer, the fraction
    dropped and the value saturated to 0..255. *)
Definition toByte (img : t) : t :=
  map1 (fun v => inject_Z (Z.max 0 (Z.min 255 (Qfloor v)))) img.

(** The samples a reducer gets from a region: those of its valid cells,
    each cell counted whole. *)
Definition validSamples (img : t) (geometry : Region) : list Q :=
  flat_map (fun p => match sample img p with
                     | Some v => [v]
                     | None => []
                     end) geometry.

(** [image.reduceRegion({reducer, geometry, scale: 30, maxPixels})]: the
    reducer is run over the valid samples of the cells of the geometry, and
    the outcome is stored under the band's name.  A region of more cells
    than [maxPixels] is refused. *)
Definition reduceRegion (img : t) (reducer : Reducer.t)
    (geometry : Region) (maxPixels : Z) : result Dictionary.t :=
  if Z.of_nat (List.length geometry) <=? maxPixels
  then Ok [(band img, reducer (validSamples img geometry))]
  else Err TooManyPixels.

End Image.

(** ** ee.Number *)

Module Number.

(** [ee.Number(lhs).or(rhs)]: "Returns 1 if and only if either input value
    is non-zero."  Both operands are required numbers: a null one is
    refused. *)
Definition or (lhs : option Q) (rhs : Q) : result Q :=
  match lhs with
  | Some l => Ok (of_bool (nonzero l || nonzero rhs))
  | None => Err (NullArgument "Number.or" "left")
  end.

End Number.

(** ** ee.Feature and vectorization *)

Module Feature.

(** [ee.Feature(geometry, properties)]; the geometry may be null. *)
Record t : Type :=
  make { geometry : option Region; properties : list (string * Q) }.

End Feature.

Definition FeatureCollection : Type := list Feature.t.

Module Vectors.

(** Two cells are neighbours when they share an edge or, with
    [eightConnected] (the default of [reduceToVectors]), a corner. *)
Definition adjacent (eightConnected : bool) (p q : pixel) : bool :=
  let dx := Z.abs (fst p - fst q) in
  let dy := Z.abs (snd p - snd q) in
  if eightConnected then (dx <=? 1) && (dy <=? 1) else (dx + dy <=? 1).

Definition sameLabel (img : Image.t) (p q : pixel) : bool :=
  match Image.sample img p, Image.sample img q with
  | Some x, Some y => Qeq_bool x y
  | _, _ => false
  end.

(** A cell joins a segment when it is a neighbour of one of its cells and
    carries the same label. *)
Definition joins (conn : bool) (img : Image.t) (seg : list pixel)
    (q : pixel) : bool :=
  existsb (fun s => adjacent conn s q && sameLabel img s q) seg.

(** Grow a segment by the cells that join it until none is left. *)
Fixpoint grow (fuel : nat) (conn : bool) (img : Image.t)
    (seg rest : list pixel) : list pixel * list pixel :=
  match fuel with
  | O => (seg, rest)
  | S k =>
      match partition (joins conn img seg) rest with
      | ([], _) => (seg, rest)
      | (inn, out) => grow k conn img (seg ++ inn) out
      end
  end.

(** The homogeneous regions of the labelled cells, one after the other. *)
Fixpoint segments (fuel : nat) (conn : bool) (img : Image.t)
    (cells : list pixel) : list (list pixel) :=
  match fuel, cells with
  | S k, p :: rest =>
      let (seg, out) := grow (List.length rest) conn img [p] rest in
      seg :: segments k conn img out
  | _, _ => []
  end.

Definition labelOf (img : Image.t) (seg : list pixel) : Q :=
  match seg with
  | p :: _ => match Image.sample img p with
              | Some v => v
              | None => 0%Q
              end
  | [] => 0%Q
  end.

(** The feature of one segment: its cells as the polygon, the count of the
    default reducer ([ee.Reducer.countEvery()]) and the label. *)
Definition featureOf (img : Image.t) (labelProperty : string)
    (seg : list pixel) : Feature.t :=
  {| Feature.geometry := Some seg;
     Feature.properties :=
       [("count", inject_Z (Z.of_nat (List.length seg)));
        (labelProperty, labelOf img seg)] |}.

Definition valid (img : Image.t) (p : pixel) : bool :=
  match Image.sample img p with
  | Some _ => true
  | None => false
  end.

(** [image.reduceToVectors({geometry, scale: 30, geometryType: 'polygon',
    labelProperty, maxPixels})]: one feature per homogeneous region of the
    valid cells of the geometry. *)
Definition reduceToVectors (img : Image.t) (geometry : Region)
    (labelProperty : string) (maxPixels : Z) : result FeatureCollection :=
  if Z.of_nat (List.length geometry) <=? maxPixels
  then
    let cells := filter (valid img) geometry in
    Ok (map (featureOf img labelProperty)
            (segments (List.length cells) true img cells))
  else Err TooManyPixels.

End Vectors.

(** ** ee.ImageCollection *)

Record Date : Type := ymd { year : Z; month : Z; day : Z }.

Definition Date_ltb (a b : Date) : bool :=
  (year a <? year b)
  || ((year a =? year b)
      && ((month a <? month b)
          || ((month a =? month b) && (day a <? day b)))).

Definition Date_leb (a b : Date) : bool := negb (Date_ltb b a).

Module Filter.

(** [ee.Filter.eq(name, value)] *)
Inductive t : Type := eq (name value : string).

Fixpoint lookup (props : list (string * string)) (name : string)
    : option string :=
  match props with
  | [] => None
  | (k, v) :: rest => if String.eqb k name then Some v else lookup rest name
  end.

Definition test (f : t) (props : list (string * string)) : bool :=
  match f with
  | eq name value =>
      match lookup props name with
      | Some v => String.eqb v value
      | None => false
      end
  end.

End Filter.

Module ImageCollection.

(** An element of a collection: when it was taken, the cells it covers, its
    metadata and its bands. *)
Record scene : Type :=
  make { time_start : Date;
         footprint : pixel -> bool;
         properties : list (string * string);
         bands : list Image.t }.

Definition t : Type := list scene.

(** [collection.filterBounds(g)]: the scenes that intersect the geometry. *)
Definition filterBounds (c : t) (g : Region) : t :=
  filter (fun s => existsb (footprint s) g) c.

(** [collection.filterDate(start, end)]: the scenes from [start] on and
    before [end]. *)
Definition filterDate (c : t) (start stop : Date) : t :=
  filter (fun s => Date_leb start (time_start s)
                   && Date_ltb (time_start s) stop) c.

Definition filter (c : t) (f : Filter.t) : t :=
  List.filter (fun s => Filter.test f (properties s)) c.

Fixpoint selectBand (bs : list Image.t) (name : string)
    : result Image.t :=
  match bs with
  | [] => Err (BandNotFound name)
  | b :: rest =>
      if String.eqb (Image.band b) name then Ok b else selectBand rest name
  end.

(** [collection.select(name)]: every scene reduced to the named band. *)
Fixpoint select (c : t) (name : string) : result t :=
  match c with
  | [] => Ok []
  | s :: rest =>
      b <- selectBand (bands s) name ;;
      rest' <- select rest name ;;
      Ok ({| time_start := time_start s; footprint := footprint s;
             properties := properties s; bands := [b] |} :: rest')
  end.

(** The band of each scene that [sum] and [mosaic] work on: the script
    calls them on one-band scenes only (CHIRPS has one band, and the radar
    scenes are reduced to theirs by [select]). *)
Definition firstBands (c : t) : list Image.t :=
  flat_map (fun s => match bands s with
                     | b :: _ => [b]
                     | [] => []
                     end) c.

(** The sum of the valid samples at a cell, masked where there is none. *)
Definition sumAt (imgs : list Image.t) (p : pixel) : option Q :=
  match flat_map (fun i => match Image.sample i p with
                           | Some v => [v]
                           | None => []
                           end) imgs with
  | [] => None
  | vs => Some (fold_right Qplus 0%Q vs)
  end.

(** [collection.sum()]: the scenes added up cell by cell.  Without a scene
    the outcome has no band, and no later step that names one can use it:
    the failure is recorded here. *)
Definition sum (c : t) : result Image.t :=
  match firstBands c with
  | [] => Err NoBands
  | (b :: _) as imgs =>
      Ok {| Image.band := Image.band b; Image.sample := sumAt imgs |}
  end.

(** The sample of the last scene that is valid at a cell. *)
Fixpoint mosaicAt (imgs : list Image.t) (p : pixel) : option Q :=
  match imgs with
  | [] => None
  | i :: rest =>
      match mosaicAt rest p with
      | Some v => Some v
      | None => Image.sample i p
      end
  end.

(** [collection.mosaic()]: the scenes laid over one another, the later ones
    on top.  The composite is given by its bands: one band for the one-band
    scenes the script calls it on, and no band at all, without any failure,
    when there is no scene. *)
Definition mosaic (c : t) : list Image.t :=
  match firstBands c with
  | [] => []
  | (b :: _) as imgs =>
      [ {| Image.band := Image.band b; Image.sample := mosaicAt imgs |} ]
  end.

End ImageCollection.

(** ** The code editor session: map, console, tasks, widgets *)

Record Vis : Type :=
  mkVis { vmin : option Q; vmax : option Q;
          palette : list string; color : option string }.

(** What a layer shows: a geometry, a one-band image, an image given by its
    bands (possibly none), or features. *)
Inductive Shown : Type :=
| ShowGeometry (g : Region)
| ShowImage (img : result Image.t)
| ShowBands (bands : result (list Image.t))
| ShowFeatures (fc : result FeatureCollection).

Record Layer : Type := mkLayer { shown : Shown; vis : Vis; title : string }.

Inductive ExportTask : Type :=
| ImageToDrive (image : result Image.t)
    (description folder fileNamePrefix : string)
    (region : Region) (scale maxPixels : Z)
| TableToDrive (collection : result FeatureCollection)
    (description folder fileNamePrefix fileFormat : string).

#[warnings="-register-all"]
Inductive Widget : Type :=
| Label (value : string) (style : list (string * string))
| Panel (widgets : list Widget) (layout : option string)
    (style : list (string * string)).

Record Session : Type :=
  mkSession { view : option (Region * Z);
              layers : list Layer;
              console : list (string * result Q);
              tasks : list ExportTask;
              ui : list Widget }.

Definition emptySession : Session :=
  {| view := None; layers := []; console := []; tasks := []; ui := [] |}.

Definition Map_centerObject (g : Region) (zoom : Z) (s : Session) : Session :=
  {| view := Some (g, zoom); layers := layers s; console := console s;
     tasks := tasks s; ui := ui s |}.

Definition Map_addLayer (x : Shown) (v : Vis) (name : string)
    (s : Session) : Session :=
  {| view := view s; layers := layers s ++ [mkLayer x v name];
     console := console s; tasks := tasks s; ui := ui s |}.

Definition print (label : string) (v : result Q) (s : Session) : Session :=
  {| view := view s; layers := layers s;
     console := console s ++ [(label, v)];
     tasks := tasks s; ui := ui s |}.

Definition submit (task : ExportTask) (s : Session) : Session :=
  {| view := view s; layers := layers s; console := console s;
     tasks := tasks s ++ [task]; ui := ui s |}.

Definition Export_image_toDrive (image : result Image.t)
    (description folder fileNamePrefix : string)
    (region : Region) (scale maxPixels : Z) : Session -> Session :=
  submit (ImageToDrive image description folder fileNamePrefix
            region scale maxPixels).

Definition Export_table_toDrive (collection : result FeatureCollection)
    (description folder fileNamePrefix fileFormat : string)
    : Session -> Session :=
  submit (TableToDrive collection description folder fileNamePrefix
            fileFormat).

Definition Map_add (w : Widget) (s : Session) : Session :=
  {| view := view s; layers := layers s; console := console s;
     tasks := tasks s; ui := ui s ++ [w] |}.

(** Statements run one after the other. *)
Definition run (stmts : list (Session -> Session)) (s : Session) : Session :=
  fold_left (fun acc stmt => stmt acc) stmts s.

(** ** The datasets the script reads *)

Record Catalog : Type :=
  mkCatalog { SRTMGL1_003 : Image.t;              (* USGS/SRTMGL1_003 *)
              CHIRPS_DAILY : ImageCollection.t;   (* UCSB-CHG/CHIRPS/DAILY *)
              S1_GRD : ImageCollection.t }.       (* COPERNICUS/S1_GRD *)

(** ** The script *)

Section Script.

(** The cells of the 30 m grid inside a polygon given by its rings. *)
Variable rasterize : list (list (Q * Q)) -> Region.

(** The area of each cell in square metres ([ee.Image.pixelArea()]). *)
Variable cellArea : pixel -> Q.

Variable cat : Catalog.

Definition pixelArea : Image.t :=
  {| Image.band := "area"; Image.sample := fun p => Some (cellArea p) |}.

Definition maxPixels : Z := 10 ^ 13.

(* 0) AOI - Mahanadi Basin bounding box *)
Definition aoi : Region :=
  rasterize [[(84, 19); (84, 22); (87, 22); (87, 19); (84, 19)]%Q].

(* 1) DEM *)
Definition dem : Image.t := Image.clip (SRTMGL1_003 cat) aoi.

(* 2) CHIRPS daily rainfall for July 2022 *)
Definition rain : result Image.t :=
  total <- ImageCollection.sum
             (ImageCollection.filterDate
                (ImageCollection.filterBounds (CHIRPS_DAILY cat) aoi)
                (ymd 2022 7 1) (ymd 2022 7 31)) ;;
  Ok (Image.clip total aoi).

(* 3) Sentinel-1 SAR overlay for visual reference *)
Definition s1 : result (list Image.t) :=
  vv <- ImageCollection.select
          (ImageCollection.filter
             (ImageCollection.filterDate
                (ImageCollection.filterBounds (S1_GRD cat) aoi)
                (ymd 2022 7 1) (ymd 2022 7 31))
             (Filter.eq "instrumentMode" "IW"))
          "VV" ;;
  Ok (map (fun band => Image.clip band aoi) (ImageCollection.mosaic vv)).

(* 4) heavy rainfall zones (>200mm) *)
Definition heavyRain : result Image.t :=
  r <- rain ;;
  Ok (Image.rename (Image.gt r 200) "HeavyRain").

(* 5) flood-prone areas combining DEM and rainfall *)
Definition floodRisk : result Image.t :=
  h <- heavyRain ;;
  Ok (Image.rename (Image.and (Image.lt dem 50) h) "FloodRisk").

(* 6) area statistics (km2) for flood-prone zones *)
Definition pixelAreaKm2 : Image.t := Image.divide pixelArea 1000000.

Definition floodArea : result Dictionary.t :=
  fr <- floodRisk ;;
  Image.reduceRegion (Image.updateMask pixelAreaKm2 fr)
    Reducer.sum aoi maxPixels.

(** [ee.Number(d.get('area')).or(0)] for a reduction outcome [d]. *)
Definition areaNumber (d : Dictionary.t) : result Q :=
  v <- Dictionary.get d "area" ;;
  Number.or v 0.

Definition floodArea_km2 : result Q :=
  d <- floodArea ;;
  areaNumber d.

(* 7) vectorize flood-prone areas *)
Definition floodVectors : result FeatureCollection :=
  fr <- floodRisk ;;
  Vectors.reduceToVectors (Image.selfMask fr) aoi "flood" maxPixels.

(* 8) the three exports *)
Definition rasterImage : result Image.t := fmap Image.toByte floodRisk.

Definition summaryTable : result FeatureCollection :=
  v <- floodArea_km2 ;;
  Ok [ {| Feature.geometry := None;
          Feature.properties := [("FloodArea_km2", v)] |} ].

(* 9) UI legend *)
Definition makeRow (c name : string) : Widget :=
  let box := Label "" [("backgroundColor", c); ("padding", "8px");
                       ("margin", "0 6px 0 0")] in
  let label := Label name [] in
  Panel [box; label] (Some "horizontal") [].

Definition addLegendFlood : Session -> Session :=
  Map_add
    (Panel [ Label "Flood Risk Legend" [("fontWeight", "bold")];
             makeRow "blue" "Heavy Rainfall (>200mm)";
             makeRow "red" "Potential Flood-prone (<50m elevation)" ]
       None
       [("position", "bottom-right"); ("padding", "8px");
        ("backgroundColor", "white")]).

Definition painted (pal : list string) : Vis :=
  {| vmin := None; vmax := None; palette := pal; color := None |}.

Definition ranged (lo hi : Q) (pal : list string) : Vis :=
  {| vmin := Some lo; vmax := Some hi; palette := pal; color := None |}.

Definition coloured (c : string) : Vis :=
  {| vmin := None; vmax := None; palette := []; color := Some c |}.

Definition script : Session :=
  run
    [ Map_centerObject aoi 7;
      Map_addLayer (ShowGeometry aoi) (coloured "red") "AOI: Mahanadi Basin";
      Map_addLayer (ShowImage (Ok dem)) (ranged 0 200 ["white"; "green"])
        "DEM";
      Map_addLayer (ShowImage rain) (ranged 0 300 ["white"; "blue"])
        "Total Rainfall July 2022";
      Map_addLayer (ShowBands s1) (ranged (-25) 0 []) "Sentinel-1 VV";
      Map_addLayer
        (ShowImage (fmap (fun h => Image.updateMask h h) heavyRain))
        (painted ["blue"]) "Rainfall > 200mm";
      Map_addLayer
        (ShowImage (fmap (fun f => Image.updateMask f f) floodRisk))
        (painted ["red"]) "Potential Flood Zones";
      print "Flood-prone area (km²):" floodArea_km2;
      Map_addLayer (ShowFeatures floodVectors) (coloured "red")
        "Flood-prone Polygons";
      Export_image_toDrive rasterImage
        "MahanadiBasin_FloodRiskRaster" "GEE_Exports"
        "MahanadiBasin_FloodRiskRaster" aoi 30 maxPixels;
      Export_table_toDrive floodVectors
        "MahanadiBasin_FloodRiskPolygons" "GEE_Exports"
        "MahanadiBasin_FloodRiskPolygons" "SHP";
      Export_table_toDrive summaryTable
        "MahanadiBasin_FloodAreaSummary" "GEE_Exports"
        "MahanadiBasin_FloodAreaSummary" "CSV";
      addLegendFlood ]
    emptySession.

End Script.

(** ** Vocabulary of the statements *)

(** The cells of a region where a mask is true: valid and non-zero. *)
Definition isTrue (img : Image.t) (p : pixel) : bool :=
  match Image.sample img p with
  | Some v => nonzero v
  | None => false
  end.

Definition trueCells (img : Image.t) (g : Region) : list pixel :=
  filter (isTrue img) g.

(** One contiguous region: a non-empty set of cells any two of which are
    joined by a chain of neighbouring cells of the set. *)
Definition linked (conn : bool) (cells : list pixel) (p q : pixel) : Prop :=
  In p cells /\ In q cells /\ Vectors.adjacent conn p q = true.

Definition contiguous (conn : bool) (cells : list pixel) : Prop :=
  cells <> [] /\
  forall p q, In p cells -> In q cells ->
              clos_refl_trans pixel (linked conn cells) p q.

(** The flood area as the data model words it: the sum, in square
    kilometres, of the area of the cells where the mask is true. *)
Definition maskedAreaKm2 (cellArea : pixel -> Q) (mask : Image.t)
    (g : Region) : Q :=
  fold_right Qplus 0%Q
    (map (fun p => (cellArea p / 1000000)%Q) (trueCells mask g)).

(** ** A small catalogue to run the script on *)

Definition exampleGrid (_ : list (list (Q * Q))) : Region :=
  [(0, 0); (0, 1); (0, 2); (0, 3); (1, 1)].

(** Cells of 30 m by 30 m. *)
Definition exampleArea (_ : pixel) : Q := 900%Q.

Definition exampleElevation : Image.t :=
  {| Image.band := "elevation";
     Image.sample := fun p =>
       match p with
       | (0, 0) => Some 49%Q
       | (0, 1) => Some 50%Q
       | (0, 2) => Some 49%Q
       | (0, 3) => Some 51%Q
       | (1, 1) => Some 12%Q
       | _ => None
       end |}.

Definition exampleDay (d : Z) (f : pixel -> option Q)
    : ImageCollection.scene :=
  {| ImageCollection.time_start := ymd 2022 7 d;
     ImageCollection.footprint := fun _ => true;
     ImageCollection.properties := [];
     ImageCollection.bands :=
       [ {| Image.band := "precipitation"; Image.sample := f |} ] |}.

Definition exampleRadar : ImageCollection.t :=
  [ {| ImageCollection.time_start := ymd 2022 7 12;
       ImageCollection.footprint := fun _ => true;
       ImageCollection.properties := [("instrumentMode", "IW")];
       ImageCollection.bands :=
         [ {| Image.band := "VV"; Image.sample := fun _ => Some (-12)%Q |};
           {| Image.band := "VH"; Image.sample := fun _ => Some (-19)%Q |} ]
    |} ].

(** Rainfall totals of 201, 201, 200, 199 and 201 mm over the five cells; the
    scene of 31 July falls outside the window. *)
Definition exampleCatalog : Catalog :=
  {| SRTMGL1_003 := exampleElevation;
     CHIRPS_DAILY :=
       [ exampleDay 10 (fun _ => Some 100%Q);
         exampleDay 20 (fun p => match p with
                                 | (0, 2) => Some 100%Q
                                 | (0, 3) => Some 99%Q
                                 | _ => Some 101%Q
                                 end);
         exampleDay 31 (fun _ => Some 500%Q) ];
     S1_GRD := [] |}.

(** The same elevation and rainfall, with a radar scene. *)
Definition radarCatalog : Catalog :=
  {| SRTMGL1_003 := SRTMGL1_003 exampleCatalog;
     CHIRPS_DAILY := CHIRPS_DAILY exampleCatalog;
     S1_GRD := exampleRadar |}.

(** A month with 100 mm everywhere. *)
Definition dryCatalog : Catalog :=
  {| SRTMGL1_003 := exampleElevation;
     CHIRPS_DAILY := [ exampleDay 10 (fun _ => Some 100%Q) ];
     S1_GRD := [] |}.

Definition blank : Image.t :=
  {| Image.band := ""; Image.sample := fun _ => None |}.

Definition orBlank (r : result Image.t) : Image.t :=
  match r with
  | Ok img => img
  | Err _ => blank
  end.

Definition exampleRain : Image.t := orBlank (rain exampleGrid exampleCatalog).

Definition exampleRisk : Image.t :=
  orBlank (floodRisk exampleGrid exampleCatalog).

Definition dryRisk : Image.t := orBlank (floodRisk exampleGrid dryCatalog).

(** ** Further vocabulary *)

(** A catalogue with another rainfall archive, or another radar archive. *)
Definition withChirps (c : Catalog) (scenes : ImageCollection.t) : Catalog :=
  {| SRTMGL1_003 := SRTMGL1_003 c;
     CHIRPS_DAILY := scenes;
     S1_GRD := S1_GRD c |}.

Definition withRadar (c : Catalog) (scenes : ImageCollection.t) : Catalog :=
  {| SRTMGL1_003 := SRTMGL1_003 c;
     CHIRPS_DAILY := CHIRPS_DAILY c;
     S1_GRD := scenes |}.

(** The cells of a feature's polygon. *)
Definition cellsOf (f : Feature.t) : list pixel :=
  match Feature.geometry f with
  | Some seg => seg
  | None => []
  end.

(** The area of a list of cells in square kilometres. *)
Definition areaKm2 (cellArea : pixel -> Q) (cells : list pixel) : Q :=
  fold_right Qplus 0%Q (map (fun p => (cellArea p / 1000000)%Q) cells).

(** A radar archive with one scene in another instrument mode and without a
    VV band, ahead of the scene of [exampleRadar]. *)
Definition mixedRadar : ImageCollection.t :=
  {| ImageCollection.time_start := ymd 2022 7 14;
     ImageCollection.footprint := fun _ => true;
     ImageCollection.properties := [("instrumentMode", "EW")];
     ImageCollection.bands :=
       [ {| Image.band := "HH"; Image.sample := fun _ => Some (-9)%Q |} ] |}
  :: exampleRadar.

(** The two scenes of [exampleCatalog] that fall in the window. *)
Definition exampleJuly : ImageCollection.t :=
  [ exampleDay 10 (fun _ => Some 100%Q);
    exampleDay 20 (fun p => match p with
                            | (0, 2) => Some 100%Q
                            | (0, 3) => Some 99%Q
                            | _ => Some 101%Q
                            end) ].

(** The scenes the script keeps of each archive. *)
Definition rainSelected (rasterize : list (list (Q * Q)) -> Region)
    (c : Catalog) : ImageCollection.t :=
  ImageCollection.filterDate
    (ImageCollection.filterBounds (CHIRPS_DAILY c) (aoi rasterize))
    (ymd 2022 7 1) (ymd 2022 7 31).

Definition radarSelected (rasterize : list (list (Q * Q)) -> Region)
    (c : Catalog) : ImageCollection.t :=
  ImageCollection.filter
    (ImageCollection.filterDate
       (ImageCollection.filterBounds (S1_GRD c) (aoi rasterize))
       (ymd 2022 7 1) (ymd 2022 7 31))
    (Filter.eq "instrumentMode" "IW").

(** An archive whose only scene is of 31 July. *)
Definition lateCatalog : Catalog :=
  withChirps exampleCatalog [ exampleDay 31 (fun _ => Some 500%Q) ].

(** The example catalogue with 10 mm more on 25 July. *)
Definition wetterCatalog : Catalog :=
  withChirps exampleCatalog
    (exampleJuly ++ [ exampleDay 25 (fun _ => Some 10%Q) ]).

Definition wetterRain : Image.t := orBlank (rain exampleGrid wetterCatalog).

(** The one polygon of the example catalogue. *)
Definition examplePolygon : Feature.t :=
  {| Feature.geometry := Some [(0, 0); (1, 1)];
     Feature.properties := [("count", 2%Q); ("flood", 1%Q)] |}.

(** Low ground with two separate wet patches. *)
Definition twoGrid (_ : list (list (Q * Q))) : Region :=
  [(0, 0); (1, 1); (2, 5); (3, 3); (3, 4)].

Definition twoCatalog : Catalog :=
  {| SRTMGL1_003 :=
       {| Image.band := "elevation"; Image.sample := fun _ => Some 10%Q |};
     CHIRPS_DAILY :=
       [ exampleDay 10 (fun _ => Some 100%Q);
         exampleDay 20 (fun p => match p with
                                 | (2, 5) => Some 50%Q
                                 | _ => Some 101%Q
                                 end) ];
     S1_GRD := [] |}.

Definition twoRisk : Image.t := orBlank (floodRisk twoGrid twoCatalog).

Definition twoPolygons : FeatureCollection :=
  [ {| Feature.geometry := Some [(0, 0); (1, 1)];
       Feature.properties := [("count", 2%Q); ("flood", 1%Q)] |};
    {| Feature.geometry := Some [(3, 3); (3, 4)];
       Feature.properties := [("count", 2%Q); ("flood", 1%Q)] |} ].

(** A radar archive whose one scene is in mode IW but has no VV band. *)
Definition brokenRadar : ImageCollection.t :=
  [ {| ImageCollection.time_start := ymd 2022 7 3;
       ImageCollection.footprint := fun _ => true;
       ImageCollection.properties := [("instrumentMode", "IW")];
       ImageCollection.bands :=
         [ {| Image.band := "HH"; Image.sample := fun _ => Some (-9)%Q |} ]
    |} ].

(** The layer of the map with a given name, and what a legend says: for
    each of its rows the colour of the box and the text beside it. *)
Definition layerNamed (name : string) (s : Session) : option Layer :=
  find (fun l => String.eqb (title l) name) (layers s).

Definition rowEntry (w : Widget) : option (string * string) :=
  match w with
  | Panel [Label _ style; Label name _] _ _ =>
      match Filter.lookup style "backgroundColor" with
      | Some c => Some (c, name)
      | None => None
      end
  | _ => None
  end.

Definition legendEntries (w : Widget) : list (string * string) :=
  match w with
  | Panel rows _ _ =>
      flat_map (fun r => match rowEntry r with
                         | Some e => [e]
                         | None => []
                         end) rows
  | Label _ _ => []
  end.

(** * Properties *)

(** ** Numbers as truth values *)

Lemma Qlt_bool_iff (x y : Q) : Qlt_bool x y = true <-> (x < y)%Q.
Proof.
  unfold Qlt_bool. rewrite negb_true_iff. split.
  - intros H. apply Qnot_le_lt. intros Hle.
    apply Qle_bool_iff in Hle. congruence.
  - intros H. destruct (Qle_bool y x) eqn:E; [|reflexivity].
    apply Qle_bool_iff in E. exfalso. exact (Qlt_not_le _ _ H E).
Qed.

Lemma Qlt_bool_false_iff (x y : Q) : Qlt_bool x y = false <-> (y <= x)%Q.
Proof.
  unfold Qlt_bool. rewrite negb_false_iff. apply Qle_bool_iff.
Qed.

Lemma nonzero_of_bool (b : bool) : nonzero (of_bool b) = b.
Proof. destruct b; reflexivity. Qed.

Lemma of_bool_one (b : bool) : of_bool b = 1%Q <-> b = true.
Proof. destruct b; simpl; split; intros H; (reflexivity || discriminate). Qed.

Lemma of_bool_zero (b : bool) : of_bool b = 0%Q <-> b = false.
Proof. destruct b; simpl; split; intros H; (reflexivity || discriminate). Qed.

Lemma of_bool_binary (b : bool) : of_bool b = 0%Q \/ of_bool b = 1%Q.
Proof. destruct b; [right | left]; reflexivity. Qed.

(** ** The two masks, cell by cell *)

Section Masks.

Variable rasterize : list (list (Q * Q)) -> Region.
Variable cat : Catalog.

(** The heavy-rainfall mask exists as soon as the rainfall total does, and is
    the comparison with 200 at every cell. *)
Lemma heavyRain_sample (rn : Image.t) :
  rain rasterize cat = Ok rn ->
  exists h,
    heavyRain rasterize cat = Ok h /\
    Image.band h = "HeavyRain" /\
    forall p, Image.sample h p =
              option_map (fun r => of_bool (Qlt_bool 200 r))
                         (Image.sample rn p).
Proof.
  intros Hr. unfold heavyRain. rewrite Hr. simpl.
  eexists. split; [reflexivity|]. split; reflexivity.
Qed.

(** The flood-risk mask at a cell, from the elevation and the rainfall total
    there. *)
Lemma floodRisk_sample (rn : Image.t) :
  rain rasterize cat = Ok rn ->
  exists fr,
    floodRisk rasterize cat = Ok fr /\
    Image.band fr = "FloodRisk" /\
    forall p, Image.sample fr p =
              match Image.sample (dem rasterize cat) p, Image.sample rn p with
              | Some e, Some r =>
                  Some (of_bool (Qlt_bool e 50 && Qlt_bool 200 r))
              | _, _ => None
              end.
Proof.
  intros Hr. unfold floodRisk, heavyRain. rewrite Hr. cbn [bind].
  eexists. split; [reflexivity|]. split; [reflexivity|].
  intros p.
  cbn [Image.sample Image.rename Image.and Image.map2 Image.lt Image.gt
       Image.map1].
  destruct (Image.sample (dem rasterize cat) p) as [e|];
    destruct (Image.sample rn p) as [r|]; cbn [option_map]; try reflexivity.
  now rewrite !nonzero_of_bool.
Qed.

(** Whenever the flood-risk mask exists, so does the rainfall total. *)
Lemma floodRisk_inv (fr : Image.t) :
  floodRisk rasterize cat = Ok fr ->
  exists rn, rain rasterize cat = Ok rn.
Proof.
  unfold floodRisk, heavyRain.
  destruct (rain rasterize cat) as [rn|e]; simpl; [eauto | discriminate].
Qed.

(** A sample of the flood-risk mask is 0 or 1. *)
Lemma floodRisk_values (fr : Image.t) (p : pixel) (v : Q) :
  floodRisk rasterize cat = Ok fr ->
  Image.sample fr p = Some v ->
  v = 0%Q \/ v = 1%Q.
Proof.
  intros Hfr Hv.
  destruct (floodRisk_inv fr Hfr) as [rn Hr].
  destruct (floodRisk_sample rn Hr) as (fr' & Hfr' & _ & Hs).
  rewrite Hfr in Hfr'. injection Hfr' as <-.
  rewrite Hs in Hv.
  destruct (Image.sample (dem rasterize cat) p); [|discriminate].
  destruct (Image.sample rn p); [|discriminate].
  injection Hv as <-. apply of_bool_binary.
Qed.

End Masks.

(** C1.  At every cell that carries an elevation [e] and a rainfall total
    [r], the flood-risk mask is 1 exactly when [e < 50] and [r > 200], and 0
    otherwise. *)
Theorem floodRisk_iff_thresholds
    (rasterize : list (list (Q * Q)) -> Region) (cat : Catalog)
    (rn : Image.t) (p : pixel) (e r : Q) :
  rain rasterize cat = Ok rn ->
  Image.sample (dem rasterize cat) p = Some e ->
  Image.sample rn p = Some r ->
  exists fr,
    floodRisk rasterize cat = Ok fr /\
    (Image.sample fr p = Some 1%Q <-> (e < 50 /\ 200 < r)%Q) /\
    (Image.sample fr p = Some 0%Q <-> ~ (e < 50 /\ 200 < r)%Q).
Proof.
  intros Hr He Hrn.
  destruct (floodRisk_sample rasterize cat rn Hr) as (fr & Hfr & _ & Hs).
  exists fr. split; [exact Hfr|].
  rewrite Hs, He, Hrn.
  assert (Hb : Qlt_bool e 50 && Qlt_bool 200 r = true
               <-> (e < 50 /\ 200 < r)%Q).
  { rewrite andb_true_iff, !Qlt_bool_iff. tauto. }
  destruct (Qlt_bool e 50 && Qlt_bool 200 r); simpl.
  - split; split; intros H; try reflexivity; try discriminate.
    + apply Hb. reflexivity.
    + exfalso. apply H. apply Hb. reflexivity.
  - split; split; intros H; try reflexivity; try discriminate.
    + apply Hb in H. discriminate.
    + intros H'. apply Hb in H'. discriminate.
Qed.

(** C4.  The heavy-rainfall mask is 1 at every cell whose rainfall total is
    above 200 and 0 at every cell whose total is at most 200; hence a cell
    with at least the rainfall of a heavy-rain cell is a heavy-rain cell. *)
Theorem heavyRain_monotone
    (rasterize : list (list (Q * Q)) -> Region) (cat : Catalog)
    (rn : Image.t) :
  rain rasterize cat = Ok rn ->
  exists h,
    heavyRain rasterize cat = Ok h /\
    (forall p r, Image.sample rn p = Some r ->
       ((200 < r)%Q -> Image.sample h p = Some 1%Q) /\
       ((r <= 200)%Q -> Image.sample h p = Some 0%Q)) /\
    (forall p q r r', Image.sample rn p = Some r ->
       Image.sample rn q = Some r' -> (r <= r')%Q ->
       Image.sample h p = Some 1%Q -> Image.sample h q = Some 1%Q).
Proof.
  intros Hr.
  destruct (heavyRain_sample rasterize cat rn Hr) as (h & Hh & _ & Hs).
  exists h. split; [exact Hh|]. split.
  - intros p r Hp. rewrite Hs, Hp. simpl. split; intros H.
    + apply Qlt_bool_iff in H. now rewrite H.
    + apply Qlt_bool_false_iff in H. now rewrite H.
  - intros p q r r' Hp Hq Hle. rewrite !Hs, Hp, Hq. simpl.
    intros H. injection H as H. apply of_bool_one in H.
    apply Qlt_bool_iff in H.
    assert (H' : (200 < r')%Q) by (eapply Qlt_le_trans; eassumption).
    apply Qlt_bool_iff in H'. now rewrite H'.
Qed.

(** ** Growing segments *)

Lemma partition_Permutation {A : Type} (f : A -> bool) (l l1 l2 : list A) :
  partition f l = (l1, l2) -> Permutation l (l1 ++ l2).
Proof.
  revert l1 l2. induction l as [|a l IH]; intros l1 l2; simpl.
  - intros [= <- <-]. constructor.
  - destruct (partition f l) as [g d]. specialize (IH g d eq_refl).
    destruct (f a); intros [= <- <-]; simpl.
    + now constructor.
    + now apply Permutation_cons_app.
Qed.

Lemma partition_none {A : Type} (f : A -> bool) (l out : list A) :
  partition f l = ([], out) -> forall x, In x l -> f x = false.
Proof.
  intros H x Hx. rewrite partition_as_filter in H.
  injection H as Hnil _.
  destruct (f x) eqn:E; [|reflexivity].
  assert (Hin : In x (filter f l)) by (apply filter_In; now split).
  rewrite Hnil in Hin. destruct Hin.
Qed.

Section Growing.

Variable conn : bool.
Variable img : Image.t.

Lemma grow_Permutation (fuel : nat) :
  forall seg rest seg' rest',
    Vectors.grow fuel conn img seg rest = (seg', rest') ->
    Permutation (seg ++ rest) (seg' ++ rest').
Proof.
  induction fuel as [|k IH]; intros seg rest seg' rest'; simpl.
  - intros [= <- <-]. reflexivity.
  - destruct (partition (Vectors.joins conn img seg) rest)
      as [inn out] eqn:E.
    destruct inn as [|i inn].
    + intros [= <- <-]. reflexivity.
    + intros H. apply IH in H. rewrite <- H.
      rewrite <- app_assoc. apply Permutation_app_head.
      now apply partition_Permutation in E.
Qed.

Lemma grow_extends (fuel : nat) :
  forall seg rest seg' rest',
    Vectors.grow fuel conn img seg rest = (seg', rest') ->
    exists more, seg' = seg ++ more.
Proof.
  induction fuel as [|k IH]; intros seg rest seg' rest'; simpl.
  - intros [= <- <-]. exists []. now rewrite app_nil_r.
  - destruct (partition (Vectors.joins conn img seg) rest)
      as [inn out] eqn:E.
    destruct inn as [|i inn].
    + intros [= <- <-]. exists []. now rewrite app_nil_r.
    + intros H. apply IH in H. destruct H as [more ->].
      exists ((i :: inn) ++ more). now rewrite app_assoc.
Qed.

(** With fuel for every cell still outside, growing stops only when no cell
    outside joins the segment. *)
Lemma grow_closed (fuel : nat) :
  forall seg rest seg' rest',
    (List.length rest <= fuel)%nat ->
    Vectors.grow fuel conn img seg rest = (seg', rest') ->
    forall q, In q rest' -> Vectors.joins conn img seg' q = false.
Proof.
  induction fuel as [|k IH]; intros seg rest seg' rest' Hlen; simpl.
  - intros [= <- <-] q Hq. destruct rest; [destruct Hq | simpl in Hlen; lia].
  - destruct (partition (Vectors.joins conn img seg) rest)
      as [inn out] eqn:E.
    destruct inn as [|i inn].
    + intros [= <- <-] q Hq. exact (partition_none _ _ _ E q Hq).
    + intros H. eapply IH; [|exact H].
      apply partition_length in E. simpl in E. lia.
Qed.

Lemma segments_nil (fuel : nat) : Vectors.segments fuel conn img [] = [].
Proof. destruct fuel; reflexivity. Qed.

(** The segments are made of the cells they were cut from, each cell in
    exactly one of them: the fuel is enough. *)
Lemma segments_cover (fuel : nat) :
  forall cells,
    (List.length cells <= fuel)%nat ->
    Permutation (List.concat (Vectors.segments fuel conn img cells)) cells.
Proof.
  induction fuel as [|k IH]; intros cells Hlen.
  - destruct cells; [constructor | simpl in Hlen; lia].
  - destruct cells as [|p rest]; [constructor|].
    simpl.
    destruct (Vectors.grow (List.length rest) conn img [p] rest)
      as [seg out] eqn:E.
    simpl.
    pose proof (grow_Permutation _ _ _ _ _ E) as HP.
    destruct (grow_extends _ _ _ _ _ E) as [more ->].
    assert (Hout : (List.length out <= k)%nat).
    { apply Permutation_length in HP. rewrite !length_app in HP.
      simpl in HP, Hlen. lia. }
    rewrite (IH out Hout). symmetry. exact HP.
Qed.

Lemma segments_incl (fuel : nat) :
  forall cells seg,
    In seg (Vectors.segments fuel conn img cells) ->
    (exists p more, seg = p :: more) /\ incl seg cells.
Proof.
  induction fuel as [|k IH]; intros cells seg.
  - simpl. intros [].
  - destruct cells as [|p rest]; [intros []|].
    simpl.
    destruct (Vectors.grow (List.length rest) conn img [p] rest)
      as [seg0 out] eqn:E.
    pose proof (grow_Permutation _ _ _ _ _ E) as HP.
    intros [<- | Hin].
    + split.
      * destruct (grow_extends _ _ _ _ _ E) as [more ->]. simpl. eauto.
      * intros x Hx. apply (Permutation_in x (Permutation_sym HP)).
        apply in_or_app. now left.
    + destruct (IH out seg Hin) as [Hne Hincl]. split; [exact Hne|].
      intros x Hx. apply (Permutation_in x (Permutation_sym HP)).
      apply in_or_app. right. now apply Hincl.
Qed.

End Growing.

(** ** One region, one segment *)

Lemma adjacent_refl (conn : bool) (p : pixel) :
  Vectors.adjacent conn p p = true.
Proof.
  unfold Vectors.adjacent. rewrite !Z.sub_diag. destruct conn; reflexivity.
Qed.

Lemma joins_intro (conn : bool) (img : Image.t) (seg : list pixel)
    (s q : pixel) :
  In s seg -> Vectors.adjacent conn s q = true ->
  Vectors.sameLabel img s q = true ->
  Vectors.joins conn img seg q = true.
Proof.
  intros Hs Ha Hl. unfold Vectors.joins. apply existsb_exists.
  exists s. split; [exact Hs|]. now rewrite Ha, Hl.
Qed.

Lemma segments_contiguous (conn : bool) (img : Image.t)
    (cells : list pixel) :
  (forall p q, In p cells -> In q cells ->
               Vectors.sameLabel img p q = true) ->
  contiguous conn cells ->
  exists seg,
    Vectors.segments (List.length cells) conn img cells = [seg] /\
    Permutation seg cells.
Proof.
  intros Hlab [Hne Hpath].
  destruct cells as [|p rest]; [congruence|]. clear Hne.
  simpl.
  destruct (Vectors.grow (List.length rest) conn img [p] rest)
    as [seg out] eqn:E.
  pose proof (grow_Permutation _ _ _ _ _ _ _ E) as HP.
  pose proof (grow_closed _ _ _ _ _ _ _ (le_n _) E) as Hclosed.
  assert (Hp : In p seg).
  { destruct (grow_extends _ _ _ _ _ _ _ E) as [more ->]. now left. }
  assert (Hcells : forall x, In x (p :: rest) -> In x seg \/ In x out).
  { intros x Hx. apply in_app_or.
    apply (Permutation_in x HP). exact Hx. }
  assert (Hwalk : forall a b,
             clos_refl_trans pixel (linked conn (p :: rest)) a b ->
             In a seg -> In b seg).
  { intros a b Hab. induction Hab as [a b (Ha & Hb & Hadj) | a | a b c _ IH1 _ IH2].
    - intros Hseg. destruct (Hcells b Hb) as [Hin | Hin]; [exact Hin|].
      specialize (Hclosed b Hin).
      rewrite (joins_intro conn img seg a b Hseg Hadj (Hlab a b Ha Hb))
        in Hclosed.
      discriminate.
    - trivial.
    - auto. }
  assert (Hout : out = []).
  { destruct out as [|q out']; [reflexivity|]. exfalso.
    assert (Hq : In q (p :: rest)).
    { apply (Permutation_in q (Permutation_sym HP)).
      apply in_or_app. right. now left. }
    assert (Hqseg : In q seg).
    { apply (Hwalk p q); [|exact Hp]. apply Hpath; [now left | exact Hq]. }
    specialize (Hclosed q (or_introl eq_refl)).
    rewrite (joins_intro conn img seg q q Hqseg (adjacent_refl conn q)
               (Hlab q q Hq Hq)) in Hclosed.
    discriminate. }
  subst out. exists seg. split.
  - now rewrite segments_nil.
  - rewrite app_nil_r in HP. symmetry. exact HP.
Qed.

(** A region that is contiguous through shared edges alone is contiguous
    through edges and corners. *)
Lemma contiguous_eight (conn : bool) (cells : list pixel) :
  contiguous conn cells -> contiguous true cells.
Proof.
  destruct conn; [trivial|].
  intros [Hne Hpath]. split; [exact Hne|].
  intros p q Hp Hq. specialize (Hpath p q Hp Hq). clear Hp Hq.
  induction Hpath as [a b (Ha & Hb & Hadj) | a | a b c _ IH1 _ IH2].
  - apply rt_step. repeat split; try assumption.
    unfold Vectors.adjacent in *.
    apply Z.leb_le in Hadj. apply andb_true_iff.
    split; apply Z.leb_le; lia.
  - apply rt_refl.
  - eapply rt_trans; eassumption.
Qed.

(** ** The vectorized mask *)

Section Vectorized.

Variable rasterize : list (list (Q * Q)) -> Region.
Variable cat : Catalog.
Variable fr : Image.t.
Hypothesis Hfr : floodRisk rasterize cat = Ok fr.

Lemma valid_selfMask (p : pixel) :
  Vectors.valid (Image.selfMask fr) p = isTrue fr p.
Proof.
  unfold Vectors.valid, isTrue, Image.selfMask, Image.updateMask.
  cbn [Image.sample].
  destruct (Image.sample fr p) as [v|] eqn:E; [|reflexivity].
  destruct (nonzero v); reflexivity.
Qed.

Lemma selfMask_true (p : pixel) :
  isTrue fr p = true ->
  Image.sample fr p = Some 1%Q /\
  Image.sample (Image.selfMask fr) p = Some 1%Q.
Proof.
  unfold isTrue, Image.selfMask, Image.updateMask. cbn [Image.sample].
  destruct (Image.sample fr p) as [v|] eqn:E; [|discriminate].
  intros Hnz.
  destruct (floodRisk_values rasterize cat fr p v Hfr E) as [-> | ->].
  - discriminate.
  - rewrite Hnz. split; reflexivity.
Qed.

Lemma trueCells_sameLabel (p q : pixel) :
  In p (trueCells fr (aoi rasterize)) ->
  In q (trueCells fr (aoi rasterize)) ->
  Vectors.sameLabel (Image.selfMask fr) p q = true.
Proof.
  unfold trueCells. rewrite !filter_In. intros [_ Hp] [_ Hq].
  unfold Vectors.sameLabel.
  destruct (selfMask_true p Hp) as [_ ->].
  destruct (selfMask_true q Hq) as [_ ->].
  reflexivity.
Qed.

(** The polygons are the segments of the true cells of the mask. *)
Lemma floodVectors_segments :
  Z.of_nat (List.length (aoi rasterize)) <= maxPixels ->
  floodVectors rasterize cat =
  Ok (map (Vectors.featureOf (Image.selfMask fr) "flood")
          (Vectors.segments
             (List.length (trueCells fr (aoi rasterize))) true
             (Image.selfMask fr) (trueCells fr (aoi rasterize)))).
Proof.
  intros Hb. unfold floodVectors. rewrite Hfr. cbn [bind].
  unfold Vectors.reduceToVectors.
  apply Z.leb_le in Hb. rewrite Hb.
  unfold trueCells.
  now rewrite (filter_ext _ _ valid_selfMask (aoi rasterize)).
Qed.

Lemma floodVectors_budget (fc : FeatureCollection) :
  floodVectors rasterize cat = Ok fc ->
  Z.of_nat (List.length (aoi rasterize)) <= maxPixels.
Proof.
  unfold floodVectors. rewrite Hfr. cbn [bind].
  unfold Vectors.reduceToVectors.
  destruct (Z.of_nat (List.length (aoi rasterize)) <=? maxPixels) eqn:E.
  - intros _. now apply Z.leb_le.
  - discriminate.
Qed.

End Vectorized.

(** C5.  With no true cell in the flood-risk mask the vectorization yields
    the empty collection; with the true cells forming one contiguous region
    (through shared edges, or through edges and corners) it yields exactly
    one feature, whose polygon is made of exactly the cells of that
    region. *)
Theorem floodVectors_regions
    (rasterize : list (list (Q * Q)) -> Region) (cat : Catalog)
    (fr : Image.t) :
  floodRisk rasterize cat = Ok fr ->
  Z.of_nat (List.length (aoi rasterize)) <= maxPixels ->
  (trueCells fr (aoi rasterize) = [] ->
   floodVectors rasterize cat = Ok []) /\
  (forall conn, contiguous conn (trueCells fr (aoi rasterize)) ->
   exists seg,
     floodVectors rasterize cat =
     Ok [ {| Feature.geometry := Some seg;
             Feature.properties :=
               [("count", inject_Z (Z.of_nat (List.length seg)));
                ("flood", 1%Q)] |} ] /\
     Permutation seg (trueCells fr (aoi rasterize))).
Proof.
  intros Hfr Hb.
  rewrite (floodVectors_segments rasterize cat fr Hfr Hb). split.
  - intros ->. reflexivity.
  - intros conn Hc. apply contiguous_eight in Hc.
    destruct (segments_contiguous true (Image.selfMask fr) _
                (trueCells_sameLabel rasterize cat fr Hfr) Hc)
      as (seg & -> & HP).
    exists seg. split; [|exact HP].
    cbn [map]. unfold Vectors.featureOf. do 4 f_equal.
    destruct seg as [|p more].
    + apply Permutation_nil in HP. destruct Hc as [Hne _]. congruence.
    + assert (Hp : In p (trueCells fr (aoi rasterize))).
      { apply (Permutation_in p HP). now left. }
      unfold trueCells in Hp. apply filter_In in Hp. destruct Hp as [_ Hp].
      unfold Vectors.labelOf.
      destruct (selfMask_true rasterize cat fr Hfr p Hp) as [_ ->].
      reflexivity.
Qed.

(** C10.  Every feature of the vectorized mask carries the property
    [flood] with value 1, and its polygon is made of cells of the area of
    interest where the flood-risk mask is 1. *)
Theorem floodVectors_labels
    (rasterize : list (list (Q * Q)) -> Region) (cat : Catalog)
    (fr : Image.t) (fc : FeatureCollection) (f : Feature.t) :
  floodRisk rasterize cat = Ok fr ->
  floodVectors rasterize cat = Ok fc ->
  In f fc ->
  In ("flood", 1%Q) (Feature.properties f) /\
  exists seg,
    Feature.geometry f = Some seg /\
    forall p, In p seg ->
              Image.sample fr p = Some 1%Q /\ In p (aoi rasterize).
Proof.
  intros Hfr Hfc Hf.
  pose proof (floodVectors_budget rasterize cat fr Hfr fc Hfc) as Hb.
  rewrite (floodVectors_segments rasterize cat fr Hfr Hb) in Hfc.
  injection Hfc as <-.
  apply in_map_iff in Hf. destruct Hf as (seg & <- & Hseg).
  apply segments_incl in Hseg. destruct Hseg as [(p & more & ->) Hincl].
  assert (Htrue : forall x, In x (p :: more) ->
                  isTrue fr x = true /\ In x (aoi rasterize)).
  { intros x Hx. apply Hincl in Hx. unfold trueCells in Hx.
    apply filter_In in Hx. tauto. }
  split.
  - unfold Vectors.featureOf, Vectors.labelOf. cbn [Feature.properties].
    destruct (Htrue p (or_introl eq_refl)) as [Hp _].
    destruct (selfMask_true rasterize cat fr Hfr p Hp) as [_ ->].
    right. now left.
  - exists (p :: more). split; [reflexivity|].
    intros x Hx. destruct (Htrue x Hx) as [Hx1 Hx2]. split; [|exact Hx2].
    now destruct (selfMask_true rasterize cat fr Hfr x Hx1).
Qed.

(** C9.  At every cell the flood-risk mask is masked, 0 or 1, and the byte
    raster handed to the export has the very same sample there. *)
Theorem floodRisk_binary
    (rasterize : list (list (Q * Q)) -> Region) (cat : Catalog)
    (fr : Image.t) :
  floodRisk rasterize cat = Ok fr ->
  rasterImage rasterize cat = Ok (Image.toByte fr) /\
  forall p,
    (Image.sample fr p = None \/
     Image.sample fr p = Some 0%Q \/
     Image.sample fr p = Some 1%Q) /\
    Image.sample (Image.toByte fr) p = Image.sample fr p.
Proof.
  intros Hfr. split.
  - unfold rasterImage. now rewrite Hfr.
  - intros p. unfold Image.toByte, Image.map1. cbn [Image.sample].
    destruct (Image.sample fr p) as [v|] eqn:E.
    + destruct (floodRisk_values rasterize cat fr p v Hfr E) as [-> | ->].
      * split; [right; left|]; reflexivity.
      * split; [right; right|]; reflexivity.
    + split; [left|]; reflexivity.
Qed.

(** ** The reported area *)

Section Area.

Variable rasterize : list (list (Q * Q)) -> Region.
Variable cellArea : pixel -> Q.
Variable cat : Catalog.
Variable fr : Image.t.
Hypothesis Hfr : floodRisk rasterize cat = Ok fr.
Hypothesis Hbudget : Z.of_nat (List.length (aoi rasterize)) <= maxPixels.

Lemma validSamples_masked (g : Region) :
  Image.validSamples (Image.updateMask (pixelAreaKm2 cellArea) fr) g =
  map (fun p => (cellArea p / 1000000)%Q) (trueCells fr g).
Proof.
  unfold Image.validSamples, trueCells.
  induction g as [|p g IH]; [reflexivity|].
  cbn [flat_map filter]. rewrite IH. clear IH.
  unfold isTrue, Image.updateMask. cbn [Image.sample].
  destruct (Image.sample fr p) as [v|]; [|reflexivity].
  destruct (nonzero v); reflexivity.
Qed.

(** The region reduction itself is the sum of the areas of the true cells. *)
Lemma floodArea_masked_sum :
  floodArea rasterize cellArea cat =
  Ok [("area", Some (maskedAreaKm2 cellArea fr (aoi rasterize)))].
Proof.
  unfold floodArea. rewrite Hfr. cbn [bind].
  unfold Image.reduceRegion.
  apply Z.leb_le in Hbudget. rewrite Hbudget.
  unfold Reducer.sum, maskedAreaKm2.
  now rewrite validSamples_masked.
Qed.

(** What is printed and exported is only whether that sum is zero or not. *)
Lemma floodArea_km2_flag :
  floodArea_km2 rasterize cellArea cat =
  Ok (of_bool (nonzero (maskedAreaKm2 cellArea fr (aoi rasterize)))).
Proof.
  unfold floodArea_km2. rewrite floodArea_masked_sum. cbn [bind].
  unfold areaNumber. cbn [Dictionary.get String.eqb Ascii.eqb Bool.eqb bind].
  unfold Number.or. now rewrite orb_false_r.
Qed.


End Area.

(** C2.  On the example catalogue two cells of 900 m2 each are at risk: the
    region reduction adds them up to 0.0018 km2, and the number printed and
    written to the summary is 1. *)
Theorem floodArea_km2_is_not_the_area :
  floodRisk exampleGrid exampleCatalog = Ok exampleRisk /\
  trueCells exampleRisk (aoi exampleGrid) = [(0, 0); (1, 1)] /\
  (maskedAreaKm2 exampleArea exampleRisk (aoi exampleGrid) == 18 / 10000)%Q /\
  floodArea_km2 exampleGrid exampleArea exampleCatalog = Ok 1%Q /\
  ~ (1 == maskedAreaKm2 exampleArea exampleRisk (aoi exampleGrid))%Q.
Proof.
  split; [reflexivity|]. split; [reflexivity|].
  split; [reflexivity|]. split; [reflexivity|].
  intros H. vm_compute in H. discriminate H.
Qed.

(** The expression [ee.Number(d.get('area')).or(0)] does not supply a
    default of its own: on a reduction outcome without a value it fails,
    and on one with a value it answers whether that value is non-zero. *)
Lemma areaNumber_absent :
  areaNumber [("area", None)] = Err (NullArgument "Number.or" "left") /\
  forall v, areaNumber [("area", Some v)] = Ok (of_bool (nonzero v)).
Proof.
  split; [reflexivity|].
  intros v. unfold areaNumber.
  cbn [Dictionary.get String.eqb Ascii.eqb Bool.eqb bind].
  unfold Number.or. now rewrite orb_false_r.
Qed.


(** ** What the script leaves behind *)

Section Outputs.

Variable rasterize : list (list (Q * Q)) -> Region.
Variable cellArea : pixel -> Q.
Variable cat : Catalog.

Lemma script_tasks :
  tasks (script rasterize cellArea cat) =
  [ ImageToDrive (fmap Image.toByte (floodRisk rasterize cat))
      "MahanadiBasin_FloodRiskRaster" "GEE_Exports"
      "MahanadiBasin_FloodRiskRaster" (aoi rasterize) 30 (10 ^ 13);
    TableToDrive (floodVectors rasterize cat)
      "MahanadiBasin_FloodRiskPolygons" "GEE_Exports"
      "MahanadiBasin_FloodRiskPolygons" "SHP";
    TableToDrive
      (fmap (fun v => [ {| Feature.geometry := None;
                           Feature.properties := [("FloodArea_km2", v)] |} ])
            (floodArea_km2 rasterize cellArea cat))
      "MahanadiBasin_FloodAreaSummary" "GEE_Exports"
      "MahanadiBasin_FloodAreaSummary" "CSV" ].
Proof. reflexivity. Qed.

Lemma script_console :
  console (script rasterize cellArea cat) =
  [("Flood-prone area (km²):", floodArea_km2 rasterize cellArea cat)].
Proof. reflexivity. Qed.

Lemma toByte_range (img : Image.t) (p : pixel) (v : Q) :
  Image.sample (Image.toByte img) p = Some v ->
  exists b, v = inject_Z b /\ 0 <= b <= 255.
Proof.
  unfold Image.toByte, Image.map1. cbn [Image.sample].
  destruct (Image.sample img p) as [x|]; [|discriminate].
  cbn [option_map]. intros [= <-].
  eexists. split; [reflexivity | lia].
Qed.

End Outputs.

(** The script submits three exports, in this order: the flood-risk mask
    cast to bytes as an image, the flood-risk polygons as a shapefile, and
    as CSV a table of one feature without geometry whose only property,
    [FloodArea_km2], is the flood-area number of the script, the one that is
    also printed.  Every sample of the exported image is an integer between
    0 and 255. *)
Lemma script_exports
    (rasterize : list (list (Q * Q)) -> Region) (cellArea : pixel -> Q)
    (cat : Catalog) :
  tasks (script rasterize cellArea cat) =
  [ ImageToDrive (fmap Image.toByte (floodRisk rasterize cat))
      "MahanadiBasin_FloodRiskRaster" "GEE_Exports"
      "MahanadiBasin_FloodRiskRaster" (aoi rasterize) 30 (10 ^ 13);
    TableToDrive (floodVectors rasterize cat)
      "MahanadiBasin_FloodRiskPolygons" "GEE_Exports"
      "MahanadiBasin_FloodRiskPolygons" "SHP";
    TableToDrive
      (fmap (fun v => [ {| Feature.geometry := None;
                           Feature.properties := [("FloodArea_km2", v)] |} ])
            (floodArea_km2 rasterize cellArea cat))
      "MahanadiBasin_FloodAreaSummary" "GEE_Exports"
      "MahanadiBasin_FloodAreaSummary" "CSV" ] /\
  console (script rasterize cellArea cat) =
  [("Flood-prone area (km²):", floodArea_km2 rasterize cellArea cat)] /\
  forall img p v,
    fmap Image.toByte (floodRisk rasterize cat) = Ok img ->
    Image.sample img p = Some v ->
    exists b, v = inject_Z b /\ 0 <= b <= 255.
Proof.
  split; [apply script_tasks|]. split; [apply script_console|].
  intros img p v Himg Hv.
  destruct (floodRisk rasterize cat) as [fr|e]; [|discriminate].
  injection Himg as <-. exact (toByte_range fr p v Hv).
Qed.

(** C8.  On the example catalogue the three exports are the byte raster of
    the flood-risk mask, the shapefile of its one polygon, and a CSV table
    of one row and one column, [FloodArea_km2]; the value in that column is
    1, while the flood-risk cells cover 0.0018 km2. *)
Theorem summary_export_value :
  tasks (script exampleGrid exampleArea exampleCatalog) =
  [ ImageToDrive (Ok (Image.toByte exampleRisk))
      "MahanadiBasin_FloodRiskRaster" "GEE_Exports"
      "MahanadiBasin_FloodRiskRaster" (aoi exampleGrid) 30 (10 ^ 13);
    TableToDrive
      (Ok [ {| Feature.geometry := Some [(0, 0); (1, 1)];
               Feature.properties := [("count", 2%Q); ("flood", 1%Q)] |} ])
      "MahanadiBasin_FloodRiskPolygons" "GEE_Exports"
      "MahanadiBasin_FloodRiskPolygons" "SHP";
    TableToDrive
      (Ok [ {| Feature.geometry := None;
               Feature.properties := [("FloodArea_km2", 1%Q)] |} ])
      "MahanadiBasin_FloodAreaSummary" "GEE_Exports"
      "MahanadiBasin_FloodAreaSummary" "CSV" ] /\
  (maskedAreaKm2 exampleArea exampleRisk (aoi exampleGrid) == 18 / 10000)%Q.
Proof. split; reflexivity. Qed.

(** C6.  Two catalogues with the same elevation model and the same rainfall
    archive give the same flood-risk mask, the same flood-area number, the
    same polygons, the same exports and the same console output, whatever
    their radar archives hold. *)
Theorem radar_not_in_decision
    (rasterize : list (list (Q * Q)) -> Region) (cellArea : pixel -> Q)
    (c1 c2 : Catalog) :
  SRTMGL1_003 c1 = SRTMGL1_003 c2 ->
  CHIRPS_DAILY c1 = CHIRPS_DAILY c2 ->
  floodRisk rasterize c1 = floodRisk rasterize c2 /\
  floodArea_km2 rasterize cellArea c1 = floodArea_km2 rasterize cellArea c2 /\
  floodVectors rasterize c1 = floodVectors rasterize c2 /\
  tasks (script rasterize cellArea c1) = tasks (script rasterize cellArea c2) /\
  console (script rasterize cellArea c1)
  = console (script rasterize cellArea c2).
Proof.
  intros Hdem Hrain.
  assert (Hrisk : floodRisk rasterize c1 = floodRisk rasterize c2).
  { unfold floodRisk, heavyRain, rain, dem. now rewrite Hdem, Hrain. }
  assert (Harea : floodArea_km2 rasterize cellArea c1
                  = floodArea_km2 rasterize cellArea c2).
  { unfold floodArea_km2, floodArea. now rewrite Hrisk. }
  assert (Hvec : floodVectors rasterize c1 = floodVectors rasterize c2).
  { unfold floodVectors. now rewrite Hrisk. }
  repeat split; try assumption.
  - now rewrite !script_tasks, Hrisk, Harea, Hvec.
  - now rewrite !script_console, Harea.
Qed.

(** ** The statements at work on the example catalogue *)

Lemma pixel_eqb_refl (p : pixel) : pixel_eqb p p = true.
Proof. unfold pixel_eqb. now rewrite !Z.eqb_refl. Qed.

Lemma example_contiguous :
  contiguous true (trueCells exampleRisk (aoi exampleGrid)).
Proof.
  change (trueCells exampleRisk (aoi exampleGrid)) with [(0, 0); (1, 1)].
  split; [discriminate|].
  intros p q [<- | [<- | []]] [<- | [<- | []]];
    try apply rt_refl;
    apply rt_step; unfold linked; simpl; intuition reflexivity.
Qed.

Lemma example_budget : Z.of_nat (List.length (aoi exampleGrid)) <= maxPixels.
Proof. unfold maxPixels. simpl. lia. Qed.

Lemma floodRisk_iff_thresholds_witness :
  rain exampleGrid exampleCatalog = Ok exampleRain /\
  (exists fr,
     floodRisk exampleGrid exampleCatalog = Ok fr /\
     (Image.sample fr (0, 0) = Some 1%Q <-> (49 < 50 /\ 200 < 201)%Q) /\
     (Image.sample fr (0, 0) = Some 0%Q <-> ~ (49 < 50 /\ 200 < 201)%Q)) /\
  (exists fr,
     floodRisk exampleGrid exampleCatalog = Ok fr /\
     (Image.sample fr (0, 1) = Some 1%Q <-> (50 < 50 /\ 200 < 201)%Q) /\
     (Image.sample fr (0, 1) = Some 0%Q <-> ~ (50 < 50 /\ 200 < 201)%Q)) /\
  (exists fr,
     floodRisk exampleGrid exampleCatalog = Ok fr /\
     (Image.sample fr (0, 2) = Some 1%Q <-> (49 < 50 /\ 200 < 200)%Q) /\
     (Image.sample fr (0, 2) = Some 0%Q <-> ~ (49 < 50 /\ 200 < 200)%Q)) /\
  (exists fr,
     floodRisk exampleGrid exampleCatalog = Ok fr /\
     (Image.sample fr (0, 3) = Some 1%Q <-> (51 < 50 /\ 200 < 199)%Q) /\
     (Image.sample fr (0, 3) = Some 0%Q <-> ~ (51 < 50 /\ 200 < 199)%Q)).
Proof.
  split; [reflexivity|].
  split; [exact (floodRisk_iff_thresholds exampleGrid exampleCatalog
                   exampleRain (0, 0) 49%Q 201%Q eq_refl eq_refl eq_refl)|].
  split; [exact (floodRisk_iff_thresholds exampleGrid exampleCatalog
                   exampleRain (0, 1) 50%Q 201%Q eq_refl eq_refl eq_refl)|].
  split; [exact (floodRisk_iff_thresholds exampleGrid exampleCatalog
                   exampleRain (0, 2) 49%Q 200%Q eq_refl eq_refl eq_refl)|].
  exact (floodRisk_iff_thresholds exampleGrid exampleCatalog
           exampleRain (0, 3) 51%Q 199%Q eq_refl eq_refl eq_refl).
Defined.

Lemma heavyRain_monotone_witness :
  rain exampleGrid exampleCatalog = Ok exampleRain /\
  exists h,
    heavyRain exampleGrid exampleCatalog = Ok h /\
    (forall p r, Image.sample exampleRain p = Some r ->
       ((200 < r)%Q -> Image.sample h p = Some 1%Q) /\
       ((r <= 200)%Q -> Image.sample h p = Some 0%Q)) /\
    (forall p q r r', Image.sample exampleRain p = Some r ->
       Image.sample exampleRain q = Some r' -> (r <= r')%Q ->
       Image.sample h p = Some 1%Q -> Image.sample h q = Some 1%Q).
Proof.
  split; [reflexivity|].
  exact (heavyRain_monotone exampleGrid exampleCatalog exampleRain eq_refl).
Defined.

Lemma floodVectors_regions_witness :
  (exists seg,
     floodVectors exampleGrid exampleCatalog =
     Ok [ {| Feature.geometry := Some seg;
             Feature.properties :=
               [("count", inject_Z (Z.of_nat (List.length seg)));
                ("flood", 1%Q)] |} ] /\
     Permutation seg [(0, 0); (1, 1)]) /\
  floodVectors exampleGrid dryCatalog = Ok [].
Proof.
  split.
  - exact (proj2 (floodVectors_regions exampleGrid exampleCatalog exampleRisk
                    eq_refl example_budget) true example_contiguous).
  - exact (proj1 (floodVectors_regions exampleGrid dryCatalog dryRisk
                    eq_refl example_budget) eq_refl).
Defined.

Lemma floodVectors_labels_witness :
  In ("flood", 1%Q) [("count", 2%Q); ("flood", 1%Q)] /\
  exists seg,
    Some [(0, 0); (1, 1)] = Some seg /\
    forall p, In p seg ->
              Image.sample exampleRisk p = Some 1%Q /\
              In p (aoi exampleGrid).
Proof.
  exact (floodVectors_labels exampleGrid exampleCatalog exampleRisk
           [ {| Feature.geometry := Some [(0, 0); (1, 1)];
                Feature.properties := [("count", 2%Q); ("flood", 1%Q)] |} ]
           {| Feature.geometry := Some [(0, 0); (1, 1)];
              Feature.properties := [("count", 2%Q); ("flood", 1%Q)] |}
           eq_refl eq_refl (or_introl eq_refl)).
Defined.

Lemma floodRisk_binary_witness :
  rasterImage exampleGrid exampleCatalog = Ok (Image.toByte exampleRisk) /\
  forall p,
    (Image.sample exampleRisk p = None \/
     Image.sample exampleRisk p = Some 0%Q \/
     Image.sample exampleRisk p = Some 1%Q) /\
    Image.sample (Image.toByte exampleRisk) p = Image.sample exampleRisk p.
Proof.
  exact (floodRisk_binary exampleGrid exampleCatalog exampleRisk eq_refl).
Defined.

Lemma radar_not_in_decision_witness :
  s1 exampleGrid exampleCatalog <> s1 exampleGrid radarCatalog /\
  floodRisk exampleGrid exampleCatalog = floodRisk exampleGrid radarCatalog /\
  floodArea_km2 exampleGrid exampleArea exampleCatalog
  = floodArea_km2 exampleGrid exampleArea radarCatalog /\
  floodVectors exampleGrid exampleCatalog
  = floodVectors exampleGrid radarCatalog /\
  tasks (script exampleGrid exampleArea exampleCatalog)
  = tasks (script exampleGrid exampleArea radarCatalog) /\
  console (script exampleGrid exampleArea exampleCatalog)
  = console (script exampleGrid exampleArea radarCatalog).
Proof.
  split; [discriminate|].
  exact (radar_not_in_decision exampleGrid exampleArea exampleCatalog
           radarCatalog eq_refl eq_refl).
Defined.


(** * Further properties of the script *)

(** ** Which scenes count *)

Lemma contains_In (g : Region) (p : pixel) :
  contains g p = true <-> In p g.
Proof.
  unfold contains. rewrite existsb_exists. split.
  - intros (q & Hq & Heq). unfold pixel_eqb in Heq.
    apply andb_true_iff in Heq. destruct Heq as [H1 H2].
    apply Z.eqb_eq in H1, H2. destruct p, q; simpl in *; subst. exact Hq.
  - intros H. exists p. split; [exact H | apply pixel_eqb_refl].
Qed.

Lemma outside_window (t : Date) :
  Date_ltb t (ymd 2022 7 1) = true \/ Date_leb (ymd 2022 7 31) t = true ->
  Date_leb (ymd 2022 7 1) t && Date_ltb t (ymd 2022 7 31) = false.
Proof.
  unfold Date_leb. intros [H | H].
  - now rewrite H.
  - apply negb_true_iff in H. rewrite H. apply andb_false_r.
Qed.

(** X1.  A rainfall scene dated before 1 July 2022, on or after 31 July
    2022, or not touching the area of interest adds nothing to the rainfall
    total: with or without it in the archive the total, and with it the
    flood-risk mask, are the same. *)
Theorem rain_ignores_scene
    (rasterize : list (list (Q * Q)) -> Region) (c : Catalog)
    (pre post : ImageCollection.t) (s : ImageCollection.scene) :
  CHIRPS_DAILY c = pre ++ s :: post ->
  Date_ltb (ImageCollection.time_start s) (ymd 2022 7 1) = true \/
  Date_leb (ymd 2022 7 31) (ImageCollection.time_start s) = true \/
  existsb (ImageCollection.footprint s) (aoi rasterize) = false ->
  rain rasterize c = rain rasterize (withChirps c (pre ++ post)) /\
  floodRisk rasterize c = floodRisk rasterize (withChirps c (pre ++ post)).
Proof.
  intros Hc Hout.
  assert (Hr : rain rasterize c
               = rain rasterize (withChirps c (pre ++ post))).
  { unfold rain. cbn [CHIRPS_DAILY withChirps]. rewrite Hc.
    unfold ImageCollection.filterDate, ImageCollection.filterBounds.
    rewrite !filter_app. cbn [List.filter].
    destruct (existsb (ImageCollection.footprint s) (aoi rasterize)) eqn:E.
    - cbn [List.filter].
      rewrite outside_window; [reflexivity|].
      destruct Hout as [H | [H | H]]; [now left | now right | discriminate].
    - reflexivity. }
  split; [exact Hr|].
  unfold floodRisk, heavyRain, dem. rewrite Hr. reflexivity.
Qed.

Lemma rain_ignores_scene_witness :
  rain exampleGrid exampleCatalog
  = rain exampleGrid (withChirps exampleCatalog (exampleJuly ++ [])) /\
  floodRisk exampleGrid exampleCatalog
  = floodRisk exampleGrid (withChirps exampleCatalog (exampleJuly ++ [])).
Proof.
  exact (rain_ignores_scene exampleGrid exampleCatalog exampleJuly []
           (exampleDay 31 (fun _ => Some 500%Q)) eq_refl
           (or_intror (or_introl eq_refl))).
Defined.

(** X2.  A radar scene outside the window, off the area of interest, or not
    in instrument mode IW never reaches the radar composite, whatever its
    bands are: with or without it in the archive the composite is the
    same. *)
Theorem s1_ignores_scene
    (rasterize : list (list (Q * Q)) -> Region) (c : Catalog)
    (pre post : ImageCollection.t) (s : ImageCollection.scene) :
  S1_GRD c = pre ++ s :: post ->
  Date_ltb (ImageCollection.time_start s) (ymd 2022 7 1) = true \/
  Date_leb (ymd 2022 7 31) (ImageCollection.time_start s) = true \/
  existsb (ImageCollection.footprint s) (aoi rasterize) = false \/
  Filter.test (Filter.eq "instrumentMode" "IW")
              (ImageCollection.properties s) = false ->
  s1 rasterize c = s1 rasterize (withRadar c (pre ++ post)).
Proof.
  intros Hc Hout. unfold s1. cbn [S1_GRD withRadar]. rewrite Hc.
  unfold ImageCollection.filter, ImageCollection.filterDate,
    ImageCollection.filterBounds.
  rewrite !filter_app. cbn [List.filter].
  destruct (existsb (ImageCollection.footprint s) (aoi rasterize)) eqn:E;
    [|reflexivity].
  cbn [List.filter].
  destruct (Date_leb (ymd 2022 7 1) (ImageCollection.time_start s)
            && Date_ltb (ImageCollection.time_start s) (ymd 2022 7 31))
    eqn:Ed; [|reflexivity].
  cbn [List.filter].
  destruct Hout as [H | [H | [H | H]]].
  - rewrite outside_window in Ed; [discriminate | now left].
  - rewrite outside_window in Ed; [discriminate | now right].
  - discriminate.
  - now rewrite H.
Qed.

Lemma s1_ignores_scene_witness :
  s1 exampleGrid (withRadar exampleCatalog mixedRadar)
  = s1 exampleGrid
      (withRadar (withRadar exampleCatalog mixedRadar) ([] ++ exampleRadar)).
Proof.
  exact (s1_ignores_scene exampleGrid (withRadar exampleCatalog mixedRadar)
           [] exampleRadar _ eq_refl
           (or_intror (or_intror (or_intror eq_refl)))).
Defined.

(** ** Nothing outside the area of interest *)

(** X3.  Outside the area of interest the five rasters the script clips
    are masked: the elevation, the rainfall total, the radar composite, the
    heavy-rainfall mask and the flood-risk mask.  The pixel-area raster is
    not clipped and has its value there as everywhere; but the rasters the
    script makes of the flood-risk mask, the masked area raster that is
    reduced, the self-masked raster that is vectorized and the byte raster
    that is exported, are masked there too. *)
Theorem outside_aoi_masked
    (rasterize : list (list (Q * Q)) -> Region) (cellArea : pixel -> Q)
    (c : Catalog) (p : pixel) :
  ~ In p (aoi rasterize) ->
  Image.sample (dem rasterize c) p = None /\
  (forall rn, rain rasterize c = Ok rn -> Image.sample rn p = None) /\
  (forall bands img, s1 rasterize c = Ok bands -> In img bands ->
                     Image.sample img p = None) /\
  (forall h, heavyRain rasterize c = Ok h -> Image.sample h p = None) /\
  (forall fr, floodRisk rasterize c = Ok fr ->
     Image.sample fr p = None /\
     Image.sample (Image.updateMask (pixelAreaKm2 cellArea) fr) p = None /\
     Image.sample (Image.selfMask fr) p = None /\
     Image.sample (Image.toByte fr) p = None) /\
  Image.sample (pixelAreaKm2 cellArea) p = Some (cellArea p / 1000000)%Q.
Proof.
  intros Hout.
  assert (Hc : contains (aoi rasterize) p = false).
  { destruct (contains (aoi rasterize) p) eqn:E; [|reflexivity].
    apply contains_In in E. contradiction. }
  assert (Hrain : forall rn, rain rasterize c = Ok rn ->
                             Image.sample rn p = None).
  { intros rn. unfold rain.
    destruct (ImageCollection.sum _) as [total|e]; cbn [bind];
      [|discriminate].
    intros [= <-]. unfold Image.clip. cbn [Image.sample]. now rewrite Hc. }
  assert (Hdem : Image.sample (dem rasterize c) p = None).
  { unfold dem, Image.clip. cbn [Image.sample]. now rewrite Hc. }
  assert (Hrisk : forall fr, floodRisk rasterize c = Ok fr ->
                             Image.sample fr p = None).
  { intros fr Hfr.
    destruct (floodRisk_inv rasterize c fr Hfr) as [rn Hr].
    destruct (floodRisk_sample rasterize c rn Hr) as (fr' & Hfr' & _ & Hs).
    rewrite Hfr in Hfr'. injection Hfr' as <-.
    now rewrite Hs, Hdem. }
  split; [exact Hdem|]. split; [exact Hrain|].
  split; [|split; [|split]].
  - intros bands img. unfold s1.
    destruct (ImageCollection.select _ _) as [vv|e]; cbn [bind];
      [|discriminate].
    intros [= <-] Hin. apply in_map_iff in Hin.
    destruct Hin as (band & <- & _).
    unfold Image.clip. cbn [Image.sample]. now rewrite Hc.
  - intros h Hh. unfold heavyRain in Hh.
    destruct (rain rasterize c) as [rn|e] eqn:Er; cbn [bind] in Hh;
      [|discriminate].
    injection Hh as <-.
    cbn [Image.sample Image.rename Image.gt Image.map1].
    now rewrite (Hrain rn eq_refl).
  - intros fr Hfr. specialize (Hrisk fr Hfr).
    unfold Image.selfMask, Image.updateMask, Image.toByte, Image.map1.
    cbn [Image.sample]. rewrite Hrisk. repeat split.
  - reflexivity.
Qed.

Lemma example_outside : ~ In (7, 7) (aoi exampleGrid).
Proof.
  intros [H | [H | [H | [H | [H | []]]]]]; discriminate H.
Qed.

Lemma outside_aoi_masked_witness :
  Image.sample (dem exampleGrid radarCatalog) (7, 7) = None /\
  (forall rn, rain exampleGrid radarCatalog = Ok rn ->
              Image.sample rn (7, 7) = None) /\
  (forall bands img, s1 exampleGrid radarCatalog = Ok bands ->
                     In img bands -> Image.sample img (7, 7) = None) /\
  (forall h, heavyRain exampleGrid radarCatalog = Ok h ->
             Image.sample h (7, 7) = None) /\
  (forall fr, floodRisk exampleGrid radarCatalog = Ok fr ->
     Image.sample fr (7, 7) = None /\
     Image.sample (Image.updateMask (pixelAreaKm2 exampleArea) fr) (7, 7)
     = None /\
     Image.sample (Image.selfMask fr) (7, 7) = None /\
     Image.sample (Image.toByte fr) (7, 7) = None) /\
  Image.sample (pixelAreaKm2 exampleArea) (7, 7)
  = Some (Qdiv (exampleArea (7, 7)) 1000000%Q).
Proof.
  exact (outside_aoi_masked exampleGrid exampleArea radarCatalog (7, 7)
           example_outside).
Defined.

(** ** Lower and wetter is never safer *)

(** X4.  Between two runs, a cell whose elevation has not risen and whose
    rainfall total has not fallen stays in the flood-risk mask if it was in
    it. *)
Theorem floodRisk_monotone
    (rasterize : list (list (Q * Q)) -> Region) (c1 c2 : Catalog)
    (rn1 rn2 : Image.t) (p : pixel) (e1 e2 r1 r2 : Q) :
  rain rasterize c1 = Ok rn1 ->
  rain rasterize c2 = Ok rn2 ->
  Image.sample (dem rasterize c1) p = Some e1 ->
  Image.sample (dem rasterize c2) p = Some e2 ->
  Image.sample rn1 p = Some r1 ->
  Image.sample rn2 p = Some r2 ->
  (e2 <= e1)%Q -> (r1 <= r2)%Q ->
  exists fr1 fr2,
    floodRisk rasterize c1 = Ok fr1 /\
    floodRisk rasterize c2 = Ok fr2 /\
    (Image.sample fr1 p = Some 1%Q -> Image.sample fr2 p = Some 1%Q).
Proof.
  intros Hr1 Hr2 He1 He2 Hp1 Hp2 Hle Hlr.
  destruct (floodRisk_sample rasterize c1 rn1 Hr1) as (fr1 & Hf1 & _ & Hs1).
  destruct (floodRisk_sample rasterize c2 rn2 Hr2) as (fr2 & Hf2 & _ & Hs2).
  exists fr1, fr2. split; [exact Hf1|]. split; [exact Hf2|].
  rewrite Hs1, Hs2, He1, He2, Hp1, Hp2.
  intros [= H]. apply of_bool_one in H. apply andb_true_iff in H.
  destruct H as [Ha Hb]. apply Qlt_bool_iff in Ha, Hb.
  assert (Ha' : Qlt_bool e2 50 = true).
  { apply Qlt_bool_iff. eapply Qle_lt_trans; eassumption. }
  assert (Hb' : Qlt_bool 200 r2 = true).
  { apply Qlt_bool_iff. eapply Qlt_le_trans; eassumption. }
  now rewrite Ha', Hb'.
Qed.

Lemma floodRisk_monotone_witness :
  exists fr1 fr2,
    floodRisk exampleGrid exampleCatalog = Ok fr1 /\
    floodRisk exampleGrid wetterCatalog = Ok fr2 /\
    (Image.sample fr1 (0, 0) = Some 1%Q ->
     Image.sample fr2 (0, 0) = Some 1%Q).
Proof.
  refine (floodRisk_monotone exampleGrid exampleCatalog wetterCatalog
            exampleRain wetterRain (0, 0) 49%Q 49%Q 201%Q 211%Q
            eq_refl eq_refl eq_refl eq_refl eq_refl eq_refl _ _);
    unfold Qle; simpl; lia.
Defined.

(** ** When the script has something to report *)

Lemma sum_outcome (c : ImageCollection.t) :
  (c = [] -> ImageCollection.sum c = Err NoBands) /\
  (forall e, ImageCollection.sum c = Err e -> e = NoBands) /\
  ((exists s b rest, In s c /\ ImageCollection.bands s = b :: rest) ->
   exists img, ImageCollection.sum c = Ok img).
Proof.
  unfold ImageCollection.sum. split; [|split].
  - intros ->. reflexivity.
  - intros e. destruct (ImageCollection.firstBands c); [|discriminate].
    now intros [= <-].
  - intros (s & b & rest & Hin & Hb).
    assert (H : In b (ImageCollection.firstBands c)).
    { unfold ImageCollection.firstBands. apply in_flat_map.
      exists s. split; [exact Hin|]. rewrite Hb. now left. }
    destruct (ImageCollection.firstBands c); [destruct H | eauto].
Qed.

Lemma floodRisk_error
    (rasterize : list (list (Q * Q)) -> Region) (c : Catalog) (e : EEError) :
  floodRisk rasterize c = Err e -> e = NoBands.
Proof.
  unfold floodRisk, heavyRain, rain.
  destruct (ImageCollection.sum _) as [img|e'] eqn:E; cbn [bind];
    [discriminate|].
  intros [= <-]. exact (proj1 (proj2 (sum_outcome _)) e' E).
Qed.

(** X5.  When no rainfall scene of the archive falls in the window over the
    area of interest, nothing can be computed: the flood-risk mask, the
    flood-area number, the polygons and the payloads of all three exports
    fail for want of a band.  When a scene with a band does, the flood-risk
    mask exists and its band is called FloodRisk. *)
Theorem floodRisk_needs_rain
    (rasterize : list (list (Q * Q)) -> Region) (cellArea : pixel -> Q)
    (c : Catalog) :
  (rainSelected rasterize c = [] ->
   floodRisk rasterize c = Err NoBands /\
   floodArea_km2 rasterize cellArea c = Err NoBands /\
   floodVectors rasterize c = Err NoBands /\
   tasks (script rasterize cellArea c) =
   [ ImageToDrive (Err NoBands)
       "MahanadiBasin_FloodRiskRaster" "GEE_Exports"
       "MahanadiBasin_FloodRiskRaster" (aoi rasterize) 30 (10 ^ 13);
     TableToDrive (Err NoBands)
       "MahanadiBasin_FloodRiskPolygons" "GEE_Exports"
       "MahanadiBasin_FloodRiskPolygons" "SHP";
     TableToDrive (Err NoBands)
       "MahanadiBasin_FloodAreaSummary" "GEE_Exports"
       "MahanadiBasin_FloodAreaSummary" "CSV" ]) /\
  ((exists s b rest, In s (rainSelected rasterize c) /\
                     ImageCollection.bands s = b :: rest) ->
   exists fr, floodRisk rasterize c = Ok fr /\
              Image.band fr = "FloodRisk").
Proof.
  split.
  - intros Hnone.
    assert (Hr : rain rasterize c = Err NoBands).
    { unfold rain. fold (rainSelected rasterize c).
      now rewrite (proj1 (sum_outcome _) Hnone). }
    assert (Hf : floodRisk rasterize c = Err NoBands).
    { unfold floodRisk, heavyRain. now rewrite Hr. }
    assert (Ha : floodArea_km2 rasterize cellArea c = Err NoBands).
    { unfold floodArea_km2, floodArea. now rewrite Hf. }
    assert (Hv : floodVectors rasterize c = Err NoBands).
    { unfold floodVectors. now rewrite Hf. }
    repeat split; try assumption.
    now rewrite script_tasks, Hf, Ha, Hv.
  - intros Hsome.
    destruct (proj2 (proj2 (sum_outcome _)) Hsome) as [total Ht].
    assert (Hr : rain rasterize c = Ok (Image.clip total (aoi rasterize))).
    { unfold rain. fold (rainSelected rasterize c). now rewrite Ht. }
    destruct (floodRisk_sample rasterize c _ Hr) as (fr & Hfr & Hb & _).
    exists fr. split; assumption.
Qed.

Lemma floodRisk_needs_rain_witness :
  (floodRisk exampleGrid lateCatalog = Err NoBands /\
   floodArea_km2 exampleGrid exampleArea lateCatalog = Err NoBands /\
   floodVectors exampleGrid lateCatalog = Err NoBands /\
   tasks (script exampleGrid exampleArea lateCatalog) =
   [ ImageToDrive (Err NoBands)
       "MahanadiBasin_FloodRiskRaster" "GEE_Exports"
       "MahanadiBasin_FloodRiskRaster" (aoi exampleGrid) 30 (10 ^ 13);
     TableToDrive (Err NoBands)
       "MahanadiBasin_FloodRiskPolygons" "GEE_Exports"
       "MahanadiBasin_FloodRiskPolygons" "SHP";
     TableToDrive (Err NoBands)
       "MahanadiBasin_FloodAreaSummary" "GEE_Exports"
       "MahanadiBasin_FloodAreaSummary" "CSV" ]) /\
  exists fr, floodRisk exampleGrid exampleCatalog = Ok fr /\
             Image.band fr = "FloodRisk".
Proof.
  split.
  - exact (proj1 (floodRisk_needs_rain exampleGrid exampleArea lateCatalog)
             eq_refl).
  - refine (proj2 (floodRisk_needs_rain exampleGrid exampleArea
                     exampleCatalog) _).
    exists (exampleDay 10 (fun _ => Some 100%Q)).
    eexists. exists []. split; [now left | reflexivity].
Defined.

(** X6.  The number the script prints and exports has three possible
    outcomes.  With a flood-risk mask and an area of interest within the
    pixel budget it is 1 when the flood-risk cells have a non-zero total
    area and 0 when they have none; with a mask and too large an area of
    interest it fails on the budget; without a mask it fails for want of a
    band.  It never fails on the key [area]. *)
Theorem floodArea_km2_outcomes
    (rasterize : list (list (Q * Q)) -> Region) (cellArea : pixel -> Q)
    (c : Catalog) :
  (exists fr,
     floodRisk rasterize c = Ok fr /\
     Z.of_nat (List.length (aoi rasterize)) <= maxPixels /\
     floodArea_km2 rasterize cellArea c =
     Ok (of_bool (nonzero (maskedAreaKm2 cellArea fr (aoi rasterize))))) \/
  (exists fr,
     floodRisk rasterize c = Ok fr /\
     maxPixels < Z.of_nat (List.length (aoi rasterize)) /\
     floodArea_km2 rasterize cellArea c = Err TooManyPixels) \/
  (floodRisk rasterize c = Err NoBands /\
   floodArea_km2 rasterize cellArea c = Err NoBands).
Proof.
  destruct (floodRisk rasterize c) as [fr|e] eqn:Hfr.
  - destruct (Z.leb_spec (Z.of_nat (List.length (aoi rasterize))) maxPixels)
      as [Hb | Hb].
    + left. exists fr. split; [reflexivity|]. split; [exact Hb|].
      exact (floodArea_km2_flag rasterize cellArea c fr Hfr Hb).
    + right. left. exists fr. split; [reflexivity|]. split; [exact Hb|].
      unfold floodArea_km2, floodArea. rewrite Hfr. cbn [bind].
      unfold Image.reduceRegion.
      apply Z.leb_gt in Hb. now rewrite Hb.
  - right. right.
    pose proof (floodRisk_error rasterize c e Hfr) as He. subst e.
    split; [reflexivity|].
    unfold floodArea_km2, floodArea. now rewrite Hfr.
Qed.

(** ** The area under the mask *)

Lemma areaKm2_nonneg (cellArea : pixel -> Q) (cells : list pixel) :
  (forall p, In p cells -> (0 <= cellArea p)%Q) ->
  (0 <= areaKm2 cellArea cells)%Q.
Proof.
  unfold areaKm2. induction cells as [|p cells IH]; intros H.
  - apply Qle_refl.
  - cbn [map fold_right].
    apply (Qplus_le_compat 0 _ 0 _).
    + apply Qle_shift_div_l; [reflexivity|].
      rewrite Qmult_0_l. apply H. now left.
    + apply IH. intros q Hq. apply H. now right.
Qed.

Lemma areaKm2_filter (cellArea : pixel -> Q) (f : pixel -> bool)
    (cells : list pixel) :
  (forall p, In p cells -> (0 <= cellArea p)%Q) ->
  (areaKm2 cellArea (filter f cells) <= areaKm2 cellArea cells)%Q.
Proof.
  induction cells as [|p cells IH]; intros H.
  - apply Qle_refl.
  - assert (IH' : (areaKm2 cellArea (filter f cells)
                   <= areaKm2 cellArea cells)%Q).
    { apply IH. intros q Hq. apply H. now right. }
    assert (Hp : (0 <= cellArea p / 1000000)%Q).
    { apply Qle_shift_div_l; [reflexivity|].
      rewrite Qmult_0_l. apply H. now left. }
    cbn [filter]. destruct (f p).
    + unfold areaKm2 in *. cbn [map fold_right].
      apply Qplus_le_compat; [apply Qle_refl | exact IH'].
    + unfold areaKm2 in *. cbn [map fold_right].
      eapply Qle_trans; [|apply Qplus_le_compat; [exact Hp | exact IH']].
      rewrite Qplus_0_l. apply Qle_refl.
Qed.

Lemma areaKm2_Permutation (cellArea : pixel -> Q) (l1 l2 : list pixel) :
  Permutation l1 l2 -> (areaKm2 cellArea l1 == areaKm2 cellArea l2)%Q.
Proof.
  unfold areaKm2. intros H. induction H; cbn [map fold_right].
  - reflexivity.
  - now rewrite IHPermutation.
  - ring.
  - now rewrite IHPermutation1.
Qed.

(** X7.  Before [.or(0)] is applied, the region reduction holds under the
    key [area] the sum, in square kilometres, of the areas of the cells of
    the area of interest where the flood-risk mask is 1; with cell areas
    that are not negative it lies between 0 and the area of the whole area
    of interest. *)
Theorem floodArea_bounds
    (rasterize : list (list (Q * Q)) -> Region) (cellArea : pixel -> Q)
    (c : Catalog) (fr : Image.t) :
  floodRisk rasterize c = Ok fr ->
  Z.of_nat (List.length (aoi rasterize)) <= maxPixels ->
  (forall p, In p (aoi rasterize) -> (0 <= cellArea p)%Q) ->
  floodArea rasterize cellArea c =
  Ok [("area", Some (maskedAreaKm2 cellArea fr (aoi rasterize)))] /\
  (0 <= maskedAreaKm2 cellArea fr (aoi rasterize))%Q /\
  (maskedAreaKm2 cellArea fr (aoi rasterize)
   <= areaKm2 cellArea (aoi rasterize))%Q.
Proof.
  intros Hfr Hb Hpos. split; [|split].
  - exact (floodArea_masked_sum rasterize cellArea c fr Hfr Hb).
  - apply (areaKm2_nonneg cellArea (trueCells fr (aoi rasterize))).
    intros p Hp. apply Hpos. unfold trueCells in Hp.
    apply filter_In in Hp. tauto.
  - exact (areaKm2_filter cellArea (isTrue fr) (aoi rasterize) Hpos).
Qed.

Lemma exampleArea_nonneg (p : pixel) :
  In p (aoi exampleGrid) -> (0 <= exampleArea p)%Q.
Proof. intros _. unfold exampleArea, Qle. simpl. lia. Qed.

Lemma floodArea_bounds_witness :
  floodArea exampleGrid exampleArea exampleCatalog =
  Ok [("area", Some (maskedAreaKm2 exampleArea exampleRisk
                       (aoi exampleGrid)))] /\
  (0 <= maskedAreaKm2 exampleArea exampleRisk (aoi exampleGrid))%Q /\
  (maskedAreaKm2 exampleArea exampleRisk (aoi exampleGrid)
   <= areaKm2 exampleArea (aoi exampleGrid))%Q.
Proof.
  exact (floodArea_bounds exampleGrid exampleArea exampleCatalog exampleRisk
           eq_refl example_budget exampleArea_nonneg).
Defined.

(** ** The polygons as a whole *)

Lemma cellsOf_features (img : Image.t) (label : string)
    (segs : list (list pixel)) :
  flat_map cellsOf (map (Vectors.featureOf img label) segs)
  = List.concat segs.
Proof.
  induction segs as [|seg segs IH]; [reflexivity|].
  cbn [map flat_map List.concat]. now rewrite IH.
Qed.

Lemma floodVectors_cover
    (rasterize : list (list (Q * Q)) -> Region) (c : Catalog)
    (fr : Image.t) (fc : FeatureCollection) :
  floodRisk rasterize c = Ok fr ->
  floodVectors rasterize c = Ok fc ->
  Permutation (flat_map cellsOf fc) (trueCells fr (aoi rasterize)).
Proof.
  intros Hfr Hfc.
  pose proof (floodVectors_budget rasterize c fr Hfr fc Hfc) as Hb.
  rewrite (floodVectors_segments rasterize c fr Hfr Hb) in Hfc.
  injection Hfc as <-.
  rewrite cellsOf_features. apply segments_cover. apply le_n.
Qed.

(** X8.  The polygons cut the flood-risk cells of the area of interest up:
    every such cell lies in exactly one polygon and the polygons hold no
    other cell.  Each polygon's [count] is the number of its cells, and the
    polygons together cover the area that the region reduction adds up. *)
Theorem floodVectors_partition
    (rasterize : list (list (Q * Q)) -> Region) (cellArea : pixel -> Q)
    (c : Catalog) (fr : Image.t) (fc : FeatureCollection) :
  floodRisk rasterize c = Ok fr ->
  floodVectors rasterize c = Ok fc ->
  Permutation (flat_map cellsOf fc) (trueCells fr (aoi rasterize)) /\
  Forall (fun f => In ("count",
                       inject_Z (Z.of_nat (List.length (cellsOf f))))
                      (Feature.properties f)) fc /\
  (areaKm2 cellArea (flat_map cellsOf fc)
   == maskedAreaKm2 cellArea fr (aoi rasterize))%Q.
Proof.
  intros Hfr Hfc.
  pose proof (floodVectors_cover rasterize c fr fc Hfr Hfc) as HP.
  split; [exact HP|]. split.
  - pose proof (floodVectors_budget rasterize c fr Hfr fc Hfc) as Hb.
    rewrite (floodVectors_segments rasterize c fr Hfr Hb) in Hfc.
    injection Hfc as <-.
    apply Forall_forall. intros f Hf.
    apply in_map_iff in Hf. destruct Hf as (seg & <- & _).
    now left.
  - exact (areaKm2_Permutation cellArea _ _ HP).
Qed.

Lemma floodVectors_partition_witness :
  Permutation (flat_map cellsOf [examplePolygon])
              (trueCells exampleRisk (aoi exampleGrid)) /\
  Forall (fun f => In ("count",
                       inject_Z (Z.of_nat (List.length (cellsOf f))))
                      (Feature.properties f)) [examplePolygon] /\
  (areaKm2 exampleArea (flat_map cellsOf [examplePolygon])
   == maskedAreaKm2 exampleArea exampleRisk (aoi exampleGrid))%Q.
Proof.
  exact (floodVectors_partition exampleGrid exampleArea exampleCatalog
           exampleRisk [examplePolygon] eq_refl eq_refl).
Defined.

Lemma adjacent_sym (conn : bool) (p q : pixel) :
  Vectors.adjacent conn p q = Vectors.adjacent conn q p.
Proof.
  unfold Vectors.adjacent.
  replace (Z.abs (fst q - fst p)) with (Z.abs (fst p - fst q)) by lia.
  replace (Z.abs (snd q - snd p)) with (Z.abs (snd p - snd q)) by lia.
  reflexivity.
Qed.

Lemma joins_none (conn : bool) (img : Image.t) (seg : list pixel)
    (q : pixel) :
  Vectors.joins conn img seg q = false ->
  forall s, In s seg ->
            Vectors.adjacent conn s q && Vectors.sameLabel img s q = false.
Proof.
  intros H s Hs.
  destruct (Vectors.adjacent conn s q && Vectors.sameLabel img s q) eqn:E;
    [|reflexivity].
  assert (Hj : Vectors.joins conn img seg q = true).
  { unfold Vectors.joins. apply existsb_exists. now exists s. }
  congruence.
Qed.

(** No cell of a later segment is a neighbour with the same label of a cell
    of an earlier one. *)
Lemma segments_separated (conn : bool) (img : Image.t) (fuel : nat) :
  forall cells,
    (List.length cells <= fuel)%nat ->
    ForallOrdPairs
      (fun a b => forall p q, In p a -> In q b ->
         Vectors.adjacent conn p q && Vectors.sameLabel img p q = false)
      (Vectors.segments fuel conn img cells).
Proof.
  induction fuel as [|k IH]; intros cells Hlen.
  - constructor.
  - destruct cells as [|c rest]; [constructor|].
    simpl.
    destruct (Vectors.grow (List.length rest) conn img [c] rest)
      as [seg out] eqn:E.
    pose proof (grow_Permutation _ _ _ _ _ _ _ E) as HP.
    pose proof (grow_closed _ _ _ _ _ _ _ (le_n _) E) as Hclosed.
    destruct (grow_extends _ _ _ _ _ _ _ E) as [more Hseg].
    assert (Hout : (List.length out <= k)%nat).
    { apply Permutation_length in HP. rewrite !length_app in HP.
      rewrite Hseg in HP. rewrite length_app in HP.
      simpl in HP, Hlen. lia. }
    constructor.
    + apply Forall_forall. intros b Hb p q Hp Hq.
      apply segments_incl in Hb. destruct Hb as [_ Hincl].
      exact (joins_none conn img seg q (Hclosed q (Hincl q Hq)) p Hp).
    + exact (IH out Hout).
Qed.

Lemma ForallOrdPairs_map {A B : Type} (R : B -> B -> Prop) (f : A -> B)
    (l : list A) :
  ForallOrdPairs (fun x y => R (f x) (f y)) l ->
  ForallOrdPairs R (map f l).
Proof.
  intros H. induction H as [|a l Ha _ IH]; cbn [map]; constructor.
  - apply Forall_forall. intros y Hy. apply in_map_iff in Hy.
    destruct Hy as (x & <- & Hx).
    rewrite Forall_forall in Ha. now apply Ha.
  - exact IH.
Qed.

Lemma ForallOrdPairs_impl {A : Type} (R S : A -> A -> Prop) (P : A -> Prop)
    (l : list A) :
  (forall x y, P x -> P y -> R x y -> S x y) ->
  Forall P l ->
  ForallOrdPairs R l -> ForallOrdPairs S l.
Proof.
  intros HRS HP H. induction H as [|a l Ha _ IH]; constructor.
  - inversion HP as [|? ? Pa Pl]; subst.
    rewrite Forall_forall in *. intros y Hy. apply HRS; auto.
  - apply IH. now inversion HP.
Qed.

(** X9.  Two different polygons never touch: no cell of one is a neighbour
    of a cell of the other, not even by a corner. *)
Theorem floodVectors_separated
    (rasterize : list (list (Q * Q)) -> Region) (c : Catalog)
    (fr : Image.t) (fc : FeatureCollection) :
  floodRisk rasterize c = Ok fr ->
  floodVectors rasterize c = Ok fc ->
  ForallOrdPairs
    (fun f g => forall p q, In p (cellsOf f) -> In q (cellsOf g) ->
       Vectors.adjacent true p q = false /\
       Vectors.adjacent true q p = false) fc.
Proof.
  intros Hfr Hfc.
  pose proof (floodVectors_budget rasterize c fr Hfr fc Hfc) as Hb.
  rewrite (floodVectors_segments rasterize c fr Hfr Hb) in Hfc.
  injection Hfc as <-.
  apply ForallOrdPairs_map. cbn [cellsOf Vectors.featureOf Feature.geometry].
  apply (ForallOrdPairs_impl
           (fun a b => forall p q, In p a -> In q b ->
              Vectors.adjacent true p q
              && Vectors.sameLabel (Image.selfMask fr) p q = false)
           _ (fun seg => incl seg (trueCells fr (aoi rasterize)))).
  - intros a b Ha Hb' H p q Hp Hq.
    specialize (H p q Hp Hq).
    rewrite (trueCells_sameLabel rasterize c fr Hfr p q (Ha p Hp) (Hb' q Hq))
      in H.
    rewrite andb_true_r in H.
    split; [exact H | now rewrite adjacent_sym].
  - apply Forall_forall. intros seg Hseg.
    now apply segments_incl in Hseg.
  - apply segments_separated. apply le_n.
Qed.

Lemma floodVectors_separated_witness :
  floodVectors twoGrid twoCatalog = Ok twoPolygons /\
  ForallOrdPairs
    (fun f g => forall p q, In p (cellsOf f) -> In q (cellsOf g) ->
       Vectors.adjacent true p q = false /\
       Vectors.adjacent true q p = false) twoPolygons.
Proof.
  split; [reflexivity|].
  exact (floodVectors_separated twoGrid twoCatalog twoRisk twoPolygons
           eq_refl eq_refl).
Defined.

(** ** Each polygon on its own *)

Lemma chain_mono (conn : bool) (seg seg' : list pixel) (x y : pixel) :
  incl seg seg' ->
  clos_refl_trans pixel (linked conn seg) x y ->
  clos_refl_trans pixel (linked conn seg') x y.
Proof.
  intros Hincl H.
  induction H as [a b (Ha & Hb & Hadj) | a | a b d _ IH1 _ IH2].
  - apply rt_step. repeat split; auto.
  - apply rt_refl.
  - eapply rt_trans; eassumption.
Qed.

Lemma chain_sym (conn : bool) (seg : list pixel) (x y : pixel) :
  clos_refl_trans pixel (linked conn seg) x y ->
  clos_refl_trans pixel (linked conn seg) y x.
Proof.
  intros H.
  induction H as [a b (Ha & Hb & Hadj) | a | a b d _ IH1 _ IH2].
  - apply rt_step. repeat split; auto. now rewrite adjacent_sym.
  - apply rt_refl.
  - eapply rt_trans; eassumption.
Qed.

(** Growing keeps every cell of the segment chained to the seed. *)
Lemma grow_chained (conn : bool) (img : Image.t) (seed : pixel)
    (fuel : nat) :
  forall seg rest seg' rest',
    In seed seg ->
    (forall x, In x seg ->
               clos_refl_trans pixel (linked conn seg) seed x) ->
    Vectors.grow fuel conn img seg rest = (seg', rest') ->
    forall x, In x seg' ->
              clos_refl_trans pixel (linked conn seg') seed x.
Proof.
  induction fuel as [|k IH]; intros seg rest seg' rest' Hseed Hinv; simpl.
  - intros [= <- <-]. exact Hinv.
  - destruct (partition (Vectors.joins conn img seg) rest)
      as [inn out] eqn:E.
    destruct inn as [|i inn].
    + intros [= <- <-]. exact Hinv.
    + apply IH.
      * apply in_or_app. now left.
      * assert (Hincl : incl seg (seg ++ i :: inn)).
        { intros y Hy. apply in_or_app. now left. }
        intros x Hx. apply in_app_or in Hx. destruct Hx as [Hx | Hx].
        -- apply (chain_mono conn seg _ _ _ Hincl). now apply Hinv.
        -- assert (Hj : Vectors.joins conn img seg x = true).
           { pose proof E as E'. rewrite partition_as_filter in E'.
             injection E' as Einn _. pose proof Hx as Hx'.
             rewrite <- Einn in Hx'. apply filter_In in Hx'. tauto. }
           unfold Vectors.joins in Hj. apply existsb_exists in Hj.
           destruct Hj as (s & Hs & Hadj).
           apply andb_true_iff in Hadj. destruct Hadj as [Hadj _].
           apply rt_trans with s.
           ++ apply (chain_mono conn seg _ _ _ Hincl). now apply Hinv.
           ++ apply rt_step. split; [now apply Hincl|].
              split; [|exact Hadj].
              apply in_or_app. now right.
Qed.

Lemma segments_chained (conn : bool) (img : Image.t) (fuel : nat) :
  forall cells seg,
    In seg (Vectors.segments fuel conn img cells) ->
    contiguous conn seg.
Proof.
  induction fuel as [|k IH]; intros cells seg.
  - simpl. intros [].
  - destruct cells as [|c rest]; [intros []|].
    simpl.
    destruct (Vectors.grow (List.length rest) conn img [c] rest)
      as [seg0 out] eqn:E.
    intros [<- | Hin]; [|exact (IH out seg Hin)].
    assert (Hchain : forall x, In x seg0 ->
              clos_refl_trans pixel (linked conn seg0) c x).
    { apply (grow_chained conn img c (List.length rest) [c] rest seg0 out);
        [now left | | exact E].
      intros x [<- | []]. apply rt_refl. }
    split.
    + destruct (grow_extends _ _ _ _ _ _ _ E) as [more ->]. discriminate.
    + intros p q Hp Hq. apply rt_trans with c.
      * apply chain_sym. now apply Hchain.
      * now apply Hchain.
Qed.

(** X10.  Every polygon is one piece: any two of its cells are joined by a
    chain of cells of the polygon in which each cell is a neighbour, by an
    edge or a corner, of the next. *)
Theorem floodVectors_contiguous
    (rasterize : list (list (Q * Q)) -> Region) (c : Catalog)
    (fr : Image.t) (fc : FeatureCollection) (f : Feature.t) :
  floodRisk rasterize c = Ok fr ->
  floodVectors rasterize c = Ok fc ->
  In f fc ->
  contiguous true (cellsOf f).
Proof.
  intros Hfr Hfc Hf.
  pose proof (floodVectors_budget rasterize c fr Hfr fc Hfc) as Hb.
  rewrite (floodVectors_segments rasterize c fr Hfr Hb) in Hfc.
  injection Hfc as <-.
  apply in_map_iff in Hf. destruct Hf as (seg & <- & Hseg).
  cbn [cellsOf Vectors.featureOf Feature.geometry].
  exact (segments_chained true _ _ _ seg Hseg).
Qed.

Lemma floodVectors_contiguous_witness :
  contiguous true (cellsOf examplePolygon).
Proof.
  exact (floodVectors_contiguous exampleGrid exampleCatalog exampleRisk
           [examplePolygon] examplePolygon eq_refl eq_refl
           (or_introl eq_refl)).
Defined.


(** ** The radar composite *)

Lemma selectBand_found (bs : list Image.t) (name : string) :
  (exists b, In b bs /\ Image.band b = name) ->
  exists b, ImageCollection.selectBand bs name = Ok b /\
            Image.band b = name.
Proof.
  induction bs as [|x bs IH]; intros (b & Hin & Hb).
  - destruct Hin.
  - cbn [ImageCollection.selectBand].
    destruct (String.eqb (Image.band x) name) eqn:E.
    + exists x. split; [reflexivity | now apply String.eqb_eq].
    + apply IH. destruct Hin as [-> | Hin].
      * apply String.eqb_neq in E. contradiction.
      * now exists b.
Qed.

Lemma selectBand_missing (bs : list Image.t) (name : string) :
  (forall b, In b bs -> Image.band b <> name) ->
  ImageCollection.selectBand bs name = Err (BandNotFound name).
Proof.
  induction bs as [|x bs IH]; intros H; [reflexivity|].
  cbn [ImageCollection.selectBand].
  destruct (String.eqb (Image.band x) name) eqn:E.
  - apply String.eqb_eq in E. exfalso. apply (H x); [now left | exact E].
  - apply IH. intros b Hb. apply H. now right.
Qed.

Lemma selectBand_error (bs : list Image.t) (name : string) (e : EEError) :
  ImageCollection.selectBand bs name = Err e -> e = BandNotFound name.
Proof.
  induction bs as [|x bs IH]; cbn [ImageCollection.selectBand].
  - now intros [= <-].
  - destruct (String.eqb (Image.band x) name); [discriminate | exact IH].
Qed.

Lemma select_error (l : ImageCollection.t) (name : string) (e : EEError) :
  ImageCollection.select l name = Err e -> e = BandNotFound name.
Proof.
  induction l as [|s l IH]; cbn [ImageCollection.select]; [discriminate|].
  destruct (ImageCollection.selectBand (ImageCollection.bands s) name)
    as [b|e'] eqn:Eb; cbn [bind].
  - destruct (ImageCollection.select l name) as [l'|e'']; cbn [bind];
      [discriminate|].
    intros [= <-]. now apply IH.
  - intros [= <-]. exact (selectBand_error _ _ _ Eb).
Qed.

Lemma select_missing (l : ImageCollection.t) (name : string) :
  Exists (fun s => forall b, In b (ImageCollection.bands s) ->
                             Image.band b <> name) l ->
  ImageCollection.select l name = Err (BandNotFound name).
Proof.
  intros H.
  destruct (ImageCollection.select l name) as [l'|e] eqn:E.
  - exfalso. revert l' E.
    induction H as [s l Hs | s l _ IH]; intros l';
      cbn [ImageCollection.select].
    + now rewrite (selectBand_missing _ _ Hs).
    + destruct (ImageCollection.selectBand (ImageCollection.bands s) name);
        cbn [bind]; [|discriminate].
      destruct (ImageCollection.select l name) as [l''|e'']; cbn [bind];
        [|discriminate].
      intros _. exact (IH l'' eq_refl).
  - now rewrite (select_error l name e E).
Qed.

Lemma select_found (l : ImageCollection.t) (name : string) :
  Forall (fun s => exists b, In b (ImageCollection.bands s) /\
                             Image.band b = name) l ->
  exists l',
    ImageCollection.select l name = Ok l' /\
    (l <> [] ->
     exists b rest, ImageCollection.firstBands l' = b :: rest /\
                    Image.band b = name).
Proof.
  intros H. induction H as [|s l Hs _ IH].
  - exists []. split; [reflexivity | congruence].
  - destruct (selectBand_found _ _ Hs) as (b & Hb & Hname).
    destruct IH as (l' & Hl' & _).
    cbn [ImageCollection.select]. rewrite Hb, Hl'. cbn [bind].
    eexists. split; [reflexivity|].
    intros _. exists b. eexists. split; [reflexivity | exact Hname].
Qed.

(** X11.  The radar composite has three outcomes.  Without a scene in mode
    IW in the window over the area of interest nothing fails: the composite
    is an image without bands.  When one of those scenes has no band VV the
    composite fails on that band.  When there are such scenes and all of
    them have a band VV the composite has exactly one band, and it is
    VV. *)
Theorem s1_outcomes
    (rasterize : list (list (Q * Q)) -> Region) (c : Catalog) :
  (radarSelected rasterize c = [] -> s1 rasterize c = Ok []) /\
  (Exists (fun s => forall b, In b (ImageCollection.bands s) ->
                              Image.band b <> "VV")
          (radarSelected rasterize c) ->
   s1 rasterize c = Err (BandNotFound "VV")) /\
  (radarSelected rasterize c <> [] ->
   Forall (fun s => exists b, In b (ImageCollection.bands s) /\
                              Image.band b = "VV")
          (radarSelected rasterize c) ->
   exists img, s1 rasterize c = Ok [img] /\ Image.band img = "VV").
Proof.
  unfold s1. fold (radarSelected rasterize c). split; [|split].
  - intros ->. reflexivity.
  - intros H. now rewrite (select_missing _ _ H).
  - intros Hne Hall.
    destruct (select_found _ _ Hall) as (l' & Hl' & Hfirst).
    destruct (Hfirst Hne) as (b & rest & Hb & Hname).
    rewrite Hl'. cbn [bind]. unfold ImageCollection.mosaic. rewrite Hb.
    cbn [map]. eexists. split; [reflexivity | exact Hname].
Qed.

Lemma s1_outcomes_witness :
  s1 exampleGrid exampleCatalog = Ok [] /\
  s1 exampleGrid (withRadar exampleCatalog brokenRadar)
  = Err (BandNotFound "VV") /\
  exists img, s1 exampleGrid radarCatalog = Ok [img] /\
              Image.band img = "VV".
Proof.
  split; [|split].
  - exact (proj1 (s1_outcomes exampleGrid exampleCatalog) eq_refl).
  - refine (proj1 (proj2 (s1_outcomes exampleGrid
                            (withRadar exampleCatalog brokenRadar))) _).
    apply Exists_cons_hd. intros b [<- | []]. discriminate.
  - refine (proj2 (proj2 (s1_outcomes exampleGrid radarCatalog)) _ _).
    + discriminate.
    + apply Forall_cons; [|apply Forall_nil].
      eexists. split; [now left | reflexivity].
Defined.

(** ** What the map shows *)

Lemma script_layers
    (rasterize : list (list (Q * Q)) -> Region) (cellArea : pixel -> Q)
    (c : Catalog) :
  layers (script rasterize cellArea c) =
  [ mkLayer (ShowGeometry (aoi rasterize)) (coloured "red")
      "AOI: Mahanadi Basin";
    mkLayer (ShowImage (Ok (dem rasterize c)))
      (ranged 0 200 ["white"; "green"]) "DEM";
    mkLayer (ShowImage (rain rasterize c))
      (ranged 0 300 ["white"; "blue"]) "Total Rainfall July 2022";
    mkLayer (ShowBands (s1 rasterize c)) (ranged (-25) 0 [])
      "Sentinel-1 VV";
    mkLayer
      (ShowImage (fmap (fun h => Image.updateMask h h)
                       (heavyRain rasterize c)))
      (painted ["blue"]) "Rainfall > 200mm";
    mkLayer
      (ShowImage (fmap (fun f => Image.updateMask f f)
                       (floodRisk rasterize c)))
      (painted ["red"]) "Potential Flood Zones";
    mkLayer (ShowFeatures (floodVectors rasterize c)) (coloured "red")
      "Flood-prone Polygons" ].
Proof. reflexivity. Qed.

(** X12.  The two mask layers of the map show true cells only: the layer
    "Rainfall > 200mm" is valid exactly at the cells whose rainfall total
    is above 200, the layer "Potential Flood Zones" exactly at the cells
    that are also below 50 m, so that the second never shows a cell the
    first does not. *)
Theorem mask_layers
    (rasterize : list (list (Q * Q)) -> Region) (cellArea : pixel -> Q)
    (c : Catalog) (rn : Image.t) :
  rain rasterize c = Ok rn ->
  exists blue red,
    layerNamed "Rainfall > 200mm" (script rasterize cellArea c) =
    Some (mkLayer (ShowImage (Ok blue)) (painted ["blue"])
            "Rainfall > 200mm") /\
    layerNamed "Potential Flood Zones" (script rasterize cellArea c) =
    Some (mkLayer (ShowImage (Ok red)) (painted ["red"])
            "Potential Flood Zones") /\
    forall p,
      (Vectors.valid blue p = true <->
       exists r, Image.sample rn p = Some r /\ (200 < r)%Q) /\
      (Vectors.valid red p = true <->
       exists e r, Image.sample (dem rasterize c) p = Some e /\
                   Image.sample rn p = Some r /\
                   (e < 50)%Q /\ (200 < r)%Q) /\
      (Vectors.valid red p = true -> Vectors.valid blue p = true).
Proof.
  intros Hr.
  destruct (heavyRain_sample rasterize c rn Hr) as (h & Hh & _ & Hhs).
  destruct (floodRisk_sample rasterize c rn Hr) as (fr & Hfr & _ & Hfs).
  exists (Image.updateMask h h), (Image.updateMask fr fr).
  unfold layerNamed. rewrite script_layers, Hh, Hfr.
  split; [reflexivity|]. split; [reflexivity|].
  intros p.
  assert (Hblue : Vectors.valid (Image.updateMask h h) p = true <->
                  exists r, Image.sample rn p = Some r /\ (200 < r)%Q).
  { unfold Vectors.valid, Image.updateMask. cbn [Image.sample].
    rewrite Hhs. destruct (Image.sample rn p) as [r|]; cbn [option_map].
    - rewrite nonzero_of_bool.
      destruct (Qlt_bool 200 r) eqn:E; cbn [option_map].
      + apply Qlt_bool_iff in E. split; [eauto | reflexivity].
      + apply Qlt_bool_false_iff in E. split; [discriminate|].
        intros (r' & [= <-] & Hlt). exfalso.
        exact (Qlt_not_le _ _ Hlt E).
    - split; [discriminate | now intros (r & H & _)]. }
  assert (Hred : Vectors.valid (Image.updateMask fr fr) p = true <->
                 exists e r, Image.sample (dem rasterize c) p = Some e /\
                             Image.sample rn p = Some r /\
                             (e < 50)%Q /\ (200 < r)%Q).
  { unfold Vectors.valid, Image.updateMask. cbn [Image.sample].
    rewrite Hfs.
    destruct (Image.sample (dem rasterize c) p) as [e|];
      [|split; [discriminate | now intros (e & r & H & _)]].
    destruct (Image.sample rn p) as [r|];
      [|split; [discriminate | now intros (e' & r & _ & H & _)]].
    rewrite nonzero_of_bool.
    destruct (Qlt_bool e 50 && Qlt_bool 200 r) eqn:E.
    - apply andb_true_iff in E. destruct E as [E1 E2].
      apply Qlt_bool_iff in E1, E2.
      split; [intros _; exists e, r; auto | reflexivity].
    - split; [discriminate|].
      intros (e' & r' & [= <-] & [= <-] & H1 & H2).
      apply Qlt_bool_iff in H1, H2. rewrite H1, H2 in E. discriminate. }
  split; [exact Hblue|]. split; [exact Hred|].
  intros H. apply Hblue. apply Hred in H.
  destruct H as (e & r & _ & Hrn & _ & Hlt). eauto.
Qed.

Lemma mask_layers_witness :
  exists blue red,
    layerNamed "Rainfall > 200mm"
      (script exampleGrid exampleArea exampleCatalog) =
    Some (mkLayer (ShowImage (Ok blue)) (painted ["blue"])
            "Rainfall > 200mm") /\
    layerNamed "Potential Flood Zones"
      (script exampleGrid exampleArea exampleCatalog) =
    Some (mkLayer (ShowImage (Ok red)) (painted ["red"])
            "Potential Flood Zones") /\
    forall p,
      (Vectors.valid blue p = true <->
       exists r, Image.sample exampleRain p = Some r /\ (200 < r)%Q) /\
      (Vectors.valid red p = true <->
       exists e r, Image.sample (dem exampleGrid exampleCatalog) p = Some e /\
                   Image.sample exampleRain p = Some r /\
                   (e < 50)%Q /\ (200 < r)%Q) /\
      (Vectors.valid red p = true -> Vectors.valid blue p = true).
Proof.
  exact (mask_layers exampleGrid exampleArea exampleCatalog exampleRain
           eq_refl).
Defined.

(** ** The legend *)

(** X13.  A row made by [makeRow] reads back as the colour and the name it
    was made of.  The legend that [addLegendFlood] adds says blue for heavy
    rainfall and red for flood-prone ground, the colours in which the two
    mask layers are painted, and adding it changes nothing else of the
    session. *)
Theorem legend_matches_layers
    (rasterize : list (list (Q * Q)) -> Region) (cellArea : pixel -> Q)
    (c : Catalog) :
  (forall colour name, rowEntry (makeRow colour name) = Some (colour, name)) /\
  (forall s, view (addLegendFlood s) = view s /\
             layers (addLegendFlood s) = layers s /\
             console (addLegendFlood s) = console s /\
             tasks (addLegendFlood s) = tasks s /\
             exists legend, ui (addLegendFlood s) = ui s ++ [legend]) /\
  exists legend,
    ui (script rasterize cellArea c) = [legend] /\
    legendEntries legend =
    [("blue", "Heavy Rainfall (>200mm)");
     ("red", "Potential Flood-prone (<50m elevation)")] /\
    option_map (fun l => palette (vis l))
      (layerNamed "Rainfall > 200mm" (script rasterize cellArea c))
    = Some ["blue"] /\
    option_map (fun l => palette (vis l))
      (layerNamed "Potential Flood Zones" (script rasterize cellArea c))
    = Some ["red"].
Proof.
  split; [reflexivity|]. split.
  - intros s. repeat split. eexists. reflexivity.
  - eexists. split; [reflexivity|]. split; [reflexivity|].
    unfold layerNamed. rewrite script_layers. split; reflexivity.
Qed.

(** ** The exports against one another *)

(** X14.  The raster export and the vector export tell the same story: a
    cell of the area of interest has the value 1 in the byte raster exactly
    when it lies in one of the polygons. *)
Theorem raster_matches_polygons
    (rasterize : list (list (Q * Q)) -> Region) (c : Catalog)
    (fr : Image.t) (fc : FeatureCollection) (p : pixel) :
  floodRisk rasterize c = Ok fr ->
  floodVectors rasterize c = Ok fc ->
  In p (aoi rasterize) ->
  rasterImage rasterize c = Ok (Image.toByte fr) /\
  (Image.sample (Image.toByte fr) p = Some 1%Q <->
   exists f, In f fc /\ In p (cellsOf f)).
Proof.
  intros Hfr Hfc Hp.
  split; [unfold rasterImage; now rewrite Hfr|].
  pose proof (floodVectors_cover rasterize c fr fc Hfr Hfc) as HP.
  assert (Hbyte : Image.sample (Image.toByte fr) p = Some 1%Q <->
                  isTrue fr p = true).
  { unfold Image.toByte, Image.map1, isTrue. cbn [Image.sample].
    destruct (Image.sample fr p) as [v|] eqn:E; cbn [option_map].
    - destruct (floodRisk_values rasterize c fr p v Hfr E) as [-> | ->].
      + split; discriminate.
      + split; reflexivity.
    - split; discriminate. }
  rewrite Hbyte. split.
  - intros Ht.
    assert (Hin : In p (flat_map cellsOf fc)).
    { apply (Permutation_in p (Permutation_sym HP)).
      unfold trueCells. apply filter_In. now split. }
    apply in_flat_map in Hin. exact Hin.
  - intros (f & Hf & Hpf).
    assert (Hin : In p (trueCells fr (aoi rasterize))).
    { apply (Permutation_in p HP). apply in_flat_map. now exists f. }
    unfold trueCells in Hin. apply filter_In in Hin. tauto.
Qed.

Lemma raster_matches_polygons_witness :
  rasterImage exampleGrid exampleCatalog = Ok (Image.toByte exampleRisk) /\
  (Image.sample (Image.toByte exampleRisk) (1, 1) = Some 1%Q <->
   exists f, In f [examplePolygon] /\ In (1, 1) (cellsOf f)).
Proof.
  exact (raster_matches_polygons exampleGrid exampleCatalog exampleRisk
           [examplePolygon] (1, 1) eq_refl eq_refl
           (or_intror (or_intror (or_intror (or_intror
              (or_introl eq_refl)))))).
Defined.
